(** * ST_helper: symbol lookup, location merge, doc-comment extraction

    A shallow embedding of [helper.py] (a Sublime Text plugin) and the
    properties of its location merge, symbol resolution, comment-block
    extractor and documentation formatter.

    Modelling conventions.
    - A Python [str] is a [string]: one [ascii] per character, so the model
      covers the strings whose characters are in the Latin-1 range.
    - A Python [int] is a [Z].
    - A location tuple [(fname, display_fname, (row, col))] is the record
      [Location]; [l[0]] is [fname l], [l[2][0]] is [row l], [l[2][1]] is
      [col l].
    - The editor objects ([view], [window]) are records of the host
      functions the plugin calls; calls whose occurrence matters are
      logged in a trace.
    - A Python exception is a [Raise] result; the [while] loop of the
      extractor runs on fuel and reports [OutOfFuel] when it is exhausted. *)

From Stdlib Require Import List String Ascii ZArith Lia Bool DecimalString.
From Stdlib Require Import Permutation DecimalZ DecimalPos.
Import ListNotations.

Local Open Scope string_scope.
Local Open Scope list_scope.
Local Open Scope Z_scope.

(** ** Python string primitives *)

Module PyStr.

(** [len(s)] *)
Definition len (s : string) : Z := Z.of_nat (String.length s).

(** [s.startswith(p)] *)
Fixpoint startswith (p s : string) : bool :=
  match p, s with
  | EmptyString, _ => true
  | String _ _, EmptyString => false
  | String a p', String b s' => if Ascii.eqb a b then startswith p' s' else false
  end.

(** [s.find(pat)], counted from offset [k] of the original string. *)
Fixpoint find_from (pat s : string) (k : Z) : Z :=
  if startswith pat s then k
  else match s with
       | EmptyString => -1
       | String _ s' => find_from pat s' (k + 1)
       end.

Definition find (pat s : string) : Z := find_from pat s 0.

(** [pat in s] *)
Fixpoint contains (pat s : string) : bool :=
  if startswith pat s then true
  else match s with
       | EmptyString => false
       | String _ s' => contains pat s'
       end.

Fixpoint drop (n : nat) (s : string) : string :=
  match n, s with
  | O, _ => s
  | S _, EmptyString => EmptyString
  | S n', String _ s' => drop n' s'
  end.

(** [s[k:]], with Python's reading of a negative [k]. *)
Definition slice_from (s : string) (k : Z) : string :=
  if k <? 0 then drop (Z.to_nat (Z.max 0 (len s + k))) s
  else drop (Z.to_nat k) s.

(** [c.isspace()] on the Latin-1 range. *)
Definition isspace (c : ascii) : bool :=
  let n := Z.of_nat (nat_of_ascii c) in
  ((9 <=? n) && (n <=? 13)) || ((28 <=? n) && (n <=? 32))
  || (n =? 133) || (n =? 160).

Fixpoint lstrip (s : string) : string :=
  match s with
  | EmptyString => EmptyString
  | String c s' => if isspace c then lstrip s' else s
  end.

Fixpoint rstrip (s : string) : string :=
  match s with
  | EmptyString => EmptyString
  | String c s' =>
      match rstrip s' with
      | EmptyString => if isspace c then EmptyString else String c EmptyString
      | r => String c r
      end
  end.

(** [s.strip()] *)
Definition strip (s : string) : string := rstrip (lstrip s).

(** [c.lower()] on the Latin-1 range: A-Z, and the accented capitals
    192-222 except the multiplication sign 215. *)
Definition lower_char (c : ascii) : ascii :=
  let n := nat_of_ascii c in
  let z := Z.of_nat n in
  if ((65 <=? z) && (z <=? 90))
     || ((192 <=? z) && (z <=? 222) && negb (z =? 215))
  then ascii_of_nat (n + 32) else c.

(** [s.lower()] *)
Fixpoint lower (s : string) : string :=
  match s with
  | EmptyString => EmptyString
  | String c s' => String (lower_char c) (lower s')
  end.

(** [str(n)] and the [%d] conversion, for an [int]. *)
Definition str_of_int (n : Z) : string := NilZero.string_of_int (Z.to_int n).

(** The string made of [n] copies of [c]. *)
Fixpoint replicate (n : nat) (c : ascii) : string :=
  match n with
  | O => EmptyString
  | S n' => String c (replicate n' c)
  end.

End PyStr.

Import PyStr.

(** Python's [+] on strings. *)
Infix "+++" := String.append (right associativity, at level 60).

(** [len] of a list. *)
Definition len_list {A} (l : list A) : Z := Z.of_nat (List.length l).

(** ** Locations *)

Record Location : Type := mkLocation {
  fname : string;          (* l[0] *)
  display_fname : string;  (* l[1] *)
  row : Z;                 (* l[2][0] *)
  col : Z                  (* l[2][1] *)
}.

(** ** The host editor *)

(** Python exceptions the plugin can raise. *)
Inductive exn : Type :=
| AttributeError   (* a method called on [None] *)
| IndexError       (* a list index out of range *)
| NameError.       (* a loop variable read after a loop that never ran *)

Inductive result (A : Type) : Type :=
| Done (a : A)
| Raise (e : exn)
| OutOfFuel.

Arguments Done {A} a.
Arguments Raise {A} e.
Arguments OutOfFuel {A}.

(** A region of a buffer, [sublime.Region(a, b)]. *)
Definition Region : Type := (Z * Z)%type.

Record View : Type := mkView {
  view_id : Z;                              (* view.id() *)
  file_name : option string;                (* view.file_name() *)
  text_point : Z -> Z -> Z;                 (* view.text_point(row, col) *)
  line : Z -> Region;                       (* view.line(pt) *)
  word : Z -> Region;                       (* view.word(pt) *)
  expand_by_class : Z -> Z -> string -> Region; (* view.expand_by_class(pt, classes, separators) *)
  substr : Region -> string;                (* view.substr(region) *)
  score_selector : Z -> string -> Z;        (* view.score_selector(pt, selector) *)
  show_definitions : bool                   (* view.settings().get('show_definitions') *)
}.

Record Window : Type := mkWindow {
  lookup_symbol_in_index : string -> list Location;
  lookup_symbol_in_open_files : string -> list Location;
  find_open_file : string -> option View
}.

(** Host calls whose occurrence the properties speak about. *)
Inductive event : Type :=
| EvLookupInIndex (symbol : string)
| EvLookupInOpenFiles (symbol : string)
| EvExpandByClass (pt : Z)
| EvWord (pt : Z).

(** A computation that logs the host calls it makes, in order. *)
Definition Traced (A : Type) : Type := (A * list event)%type.

Definition ret {A} (a : A) : Traced A := (a, []).

Definition bind {A B} (m : Traced A) (k : A -> Traced B) : Traced B :=
  let '(a, t1) := m in
  let '(b, t2) := k a in
  (b, t1 ++ t2).

Definition call {A} (e : event) (a : A) : Traced A := (a, [e]).

Notation "x <- m ;; k" := (bind m (fun x => k))
  (at level 61, m at next level, right associativity).

(** ** [lookup_symbol] *)

(** The nested helper [file_in_location_list]. *)
Fixpoint file_in_location_list (name : string) (locations : list Location) : bool :=
  match locations with
  | [] => false
  | l :: rest =>
      if String.eqb (fname l) name then true
      else file_in_location_list name rest
  end.

(** The innermost loop: every open-file entry of [l]'s path is appended to
    [locations] and to [ofl_ignore]. *)
Definition override_with_open_files (l : Location)
    (open_file_locations : list Location)
    (st : list Location * list Location) : list Location * list Location :=
  fold_left
    (fun '(locations, ofl_ignore) ofl =>
       if String.eqb (fname l) (fname ofl)
       then (locations ++ [ofl], ofl_ignore ++ [ofl])
       else (locations, ofl_ignore))
    open_file_locations st.

(** One iteration of the loop over [index_locations]. *)
Definition index_step (open_file_locations : list Location)
    (st : list Location * list Location) (l : Location)
    : list Location * list Location :=
  if file_in_location_list (fname l) open_file_locations then
    if negb (file_in_location_list (fname l) (snd st)) then
      override_with_open_files l open_file_locations st
    else st
  else (fst st ++ [l], snd st).

(** The loop over [index_locations], from given [locations] and
    [ofl_ignore]. *)
Definition index_loop (open_file_locations index_locations : list Location)
    (st : list Location * list Location) : list Location * list Location :=
  fold_left (index_step open_file_locations) index_locations st.

(** The closing loop over [open_file_locations]. *)
Definition open_file_loop (ofl_ignore open_file_locations locations : list Location)
    : list Location :=
  fold_left
    (fun locations ofl =>
       if negb (file_in_location_list (fname ofl) ofl_ignore)
       then locations ++ [ofl] else locations)
    open_file_locations locations.

(** The combine step of [lookup_symbol]. *)
Definition merge (index_locations open_file_locations : list Location)
    : list Location :=
  let '(locations, ofl_ignore) :=
    index_loop open_file_locations index_locations ([], []) in
  open_file_loop ofl_ignore open_file_locations locations.

Definition lookup_symbol (window : Window) (symbol : string)
    : Traced (list Location) :=
  if len (strip symbol) <? 3 then ret []
  else
    index_locations <-
      call (EvLookupInIndex symbol) (lookup_symbol_in_index window symbol) ;;
    open_file_locations <-
      call (EvLookupInOpenFiles symbol) (lookup_symbol_in_open_files window symbol) ;;
    ret (merge index_locations open_file_locations).


(** ** [symbol_at_point] *)

(** The constants of the host's [sublime] module that the plugin reads. *)
Record SublimeModule : Type := mkSublime {
  CLASS_WORD_START : Z;
  CLASS_WORD_END : Z;
  HOVER_TEXT : Z
}.

Definition symbol_at_point (sublime : SublimeModule) (window : Window)
    (view : View) (pt : Z) : Traced (string * list Location) :=
  symbol <-
    call (EvExpandByClass pt)
      (substr view
         (expand_by_class view pt
            (Z.lor (CLASS_WORD_START sublime) (CLASS_WORD_END sublime))
            "[]{}()<>:.")) ;;
  locations <- lookup_symbol window symbol ;;
  if len_list locations =? 0 then
    symbol <- call (EvWord pt) (substr view (word view pt)) ;;
    locations <- lookup_symbol window symbol ;;
    ret (symbol, locations)
  else ret (symbol, locations).

(** ** Rendering a location *)

Definition format_location (l : Location) : string :=
  display_fname l +++ ":" +++ str_of_int (row l).

Definition location_href (l : Location) : string :=
  fname l +++ ":" +++ str_of_int (row l) +++ ":" +++ str_of_int (col l).

(** ** [filter_current_symbol] *)

(** The truth value of a view object or [None]: a view is true when its id
    is not 0. *)
Definition view_truthy (view : option View) : bool :=
  match view with
  | Some v => negb (view_id v =? 0)
  | None => false
  end.

(** The nested [match_view]. [path_view and ...] is false when
    [path_view] is [None] or a view that is not true. *)
Definition match_view (window : Window) (path : string) (view : View) : bool :=
  match file_name view with
  | None =>
      if startswith "<untitled " path then
        match find_open_file window path with
        | None => false
        | Some path_view =>
            if view_truthy (Some path_view)
            then view_id path_view =? view_id view
            else false
        end
      else false
  | Some name => String.eqb path name
  end.

(** One iteration of the loop of [filter_current_symbol]: [continue] leaves
    [new_locations] as it is, otherwise [l] is appended. *)
Definition filter_step (window : Window) (view : View) (point : Z)
    (symbol : string) (new_locations : list Location) (l : Location)
    : list Location :=
  if match_view window (fname l) view then
    let symbol_begin_pt := text_point view (row l - 1) (col l) in
    let symbol_end_pt := symbol_begin_pt + len symbol in
    if (symbol_begin_pt <=? point) && (point <=? symbol_end_pt)
    then new_locations
    else new_locations ++ [l]
  else new_locations ++ [l].

Definition filter_current_symbol (window : Window) (view : View) (point : Z)
    (symbol : string) (locations : list Location) : list Location :=
  fold_left (filter_step window view point symbol) locations [].

(** ** [htmlList], [htmlText] *)

Definition htmlList (liste : list string) : string :=
  fold_left (fun html ligne => html +++ "<li>" +++ ligne +++ "</li>") liste "<ul>"
  +++ "</ul>".

Definition htmlText (liste : list string) : string :=
  fold_left (fun html ligne => html +++ "<p>" +++ ligne +++ "</p>") liste "".

(** ** [miseEnForme] *)

(** The four buckets and the memory cell [last] of the classification
    loop. *)
Record Buckets : Type := mkBuckets {
  inputParam : list string;
  outputParam : list string;
  description : list string;
  other : list string;
  last : string
}.

Definition initial_buckets : Buckets := mkBuckets [] [] [] [] "".

(** [lst[len(lst)-1] = lst[len(lst)-1] + temp]: on an empty list the index
    is -1 and the read raises [IndexError]. *)
Fixpoint extend_last (lst : list string) (temp : string) : result (list string) :=
  match lst with
  | [] => Raise IndexError
  | [x] => Done [x +++ temp]
  | x :: rest =>
      match extend_last rest temp with
      | Done rest' => Done (x :: rest')
      | Raise e => Raise e
      | OutOfFuel => OutOfFuel
      end
  end.

(** One iteration of the classification loop. *)
Definition classify_step (b : Buckets) (ligne : string) : result Buckets :=
  if contains "@param" (lower ligne) then
    let pos := find "@param" (lower ligne) + 6 in
    Done (mkBuckets (inputParam b ++ [slice_from ligne pos]) (outputParam b)
            (description b) (other b) "@param")
  else if contains "@return" (lower ligne) then
    let pos := find "@return" (lower ligne) + 7 in
    Done (mkBuckets (inputParam b) (outputParam b ++ [slice_from ligne pos])
            (description b) (other b) "@return")
  else if contains "@desc" (lower ligne) then
    let pos := find "@desc" (lower ligne) + 5 in
    Done (mkBuckets (inputParam b) (outputParam b)
            (description b ++ [slice_from ligne pos]) (other b) "@desc")
  else if contains "@" ligne then
    Done (mkBuckets (inputParam b) (outputParam b) (description b)
            (other b ++ [ligne]) "")
  else if String.eqb (last b) "@param" then
    let temp := "<p style='margin-left : 10px;'>" +++ ligne +++ "</p>" in
    match extend_last (inputParam b) temp with
    | Done inputParam' =>
        Done (mkBuckets inputParam' (outputParam b) (description b) (other b) (last b))
    | Raise e => Raise e
    | OutOfFuel => OutOfFuel
    end
  else if String.eqb (last b) "@return" then
    let temp := "<p style='margin-left : 10px;'>" +++ ligne +++ "</p>" in
    match extend_last (outputParam b) temp with
    | Done outputParam' =>
        Done (mkBuckets (inputParam b) outputParam' (description b) (other b) (last b))
    | Raise e => Raise e
    | OutOfFuel => OutOfFuel
    end
  else if String.eqb (last b) "@desc" then
    Done (mkBuckets (inputParam b) (outputParam b) (description b ++ [ligne])
            (other b) (last b))
  else
    Done (mkBuckets (inputParam b) (outputParam b) (description b)
            (other b ++ [ligne]) "").

(** The classification loop over [textTab]. *)
Fixpoint classify (b : Buckets) (textTab : list string) : result Buckets :=
  match textTab with
  | [] => Done b
  | ligne :: rest =>
      match classify_step b ligne with
      | Done b' => classify b' rest
      | Raise e => Raise e
      | OutOfFuel => OutOfFuel
      end
  end.

Definition e_grave : ascii := "232"%char.
Definition e_acute : ascii := "233"%char.

(** The four headings, [e_grave] and [e_acute] being the accented letters
    of the source text. *)
Definition heading_input_one : string :=
  "<p>Param" +++ String e_grave "tre d'entr" +++ String e_acute "e :</p>".
Definition heading_input_many : string :=
  "<p>Param" +++ String e_grave "tres d'entr" +++ String e_acute "es :</p>".
Definition heading_output_one : string :=
  "<p>Param" +++ String e_grave "tre de sortie :</p>".
Definition heading_output_many : string :=
  "<p>Param" +++ String e_grave "tres de sorties :</p>".

Definition render_description (description : list string) : string :=
  if negb (len_list description =? 0) then
    "<p>Description</p>" +++ "<ul>" +++ htmlText description +++ "</ul>"
  else "".

Definition render_input (inputParam : list string) : string :=
  if negb (len_list inputParam =? 0) then
    (if len_list inputParam =? 1 then heading_input_one else heading_input_many)
    +++ htmlList inputParam
  else "".

Definition render_output (outputParam : list string) : string :=
  if negb (len_list outputParam =? 0) then
    (if len_list outputParam =? 1 then heading_output_one else heading_output_many)
    +++ htmlList outputParam
  else "".

Definition render_other (other : list string) : string :=
  if negb (len_list other =? 0) then htmlText other else "".

(** The rendering half of [miseEnForme]: [html] grows by one section per
    [if]. *)
Definition render (b : Buckets) : string :=
  let html := "" in
  let html := html +++ render_description (description b) in
  let html := html +++ render_input (inputParam b) in
  let html := html +++ render_output (outputParam b) in
  let html := html +++ render_other (other b) in
  html.

Definition miseEnForme (textTab : list string) : result string :=
  match classify initial_buckets textTab with
  | Done b => Done (render b)
  | Raise e => Raise e
  | OutOfFuel => OutOfFuel
  end.


(** ** [extractInfo] *)

(** The first loop of [extractInfo]: [view] is rebound, once per location,
    to the open file of that location ([None] when it is not open, and a
    method call on [None] raises). [view.window()] is [window]. *)
Fixpoint rebind_view (window : Window) (view : option View)
    (locations : list Location) : result (option View) :=
  match locations with
  | [] => Done view
  | l :: rest =>
      match view with
      | None => Raise AttributeError
      | Some _ => rebind_view window (find_open_file window (fname l)) rest
      end
  end.

(** The value of the loop variable [l] once the loop is over. *)
Fixpoint loop_variable (locations : list Location) : option Location :=
  match locations with
  | [] => None
  | [l] => Some l
  | _ :: rest => loop_variable rest
  end.

(** The body of the [while] loop on the line [temp]: the new values of
    [cont], [i] and [htmlTab]. *)
Definition scan_step (temp : string) (i : Z) (htmlTab : list string)
    : bool * Z * list string :=
  let pos := find "#" temp in
  if contains "END FUNCTION" temp then (false, i, htmlTab)
  else if negb (pos =? -1) then
    let i := i + 1 in
    if contains "######" temp then (true, i, htmlTab)
    else if contains "======" temp then (true, i, htmlTab)
    else if contains "-----" temp then (true, i, htmlTab)
    else if contains "<><><" temp then (true, i, htmlTab)
    else (true, i, htmlTab ++ [slice_from temp (pos + 1)])
  else if len temp =? 0 then (true, i + 1, htmlTab)
  else if contains "FUNCTION" temp then (true, i + 1, htmlTab)
  else (false, i, htmlTab).

(** The line read by the loop when its counter is [i]. *)
Definition line_above (view : View) (l : Location) (i : Z) : string :=
  substr view (line view (text_point view (row l - 1 - i) (col l))).

(** The [while cont] loop. *)
Fixpoint scan (fuel : nat) (view : View) (l : Location) (i : Z)
    (htmlTab : list string) : result (list string) :=
  match fuel with
  | O => OutOfFuel
  | S fuel' =>
      let temp := line_above view l i in
      let '(cont, i', htmlTab') := scan_step temp i htmlTab in
      if cont then scan fuel' view l i' htmlTab' else Done htmlTab'
  end.

Definition extractInfo (fuel : nat) (window : Window) (view : View)
    (locations : list Location) : result string :=
  let html := "" in
  match rebind_view window (Some view) locations with
  | Done (Some view) =>
      match loop_variable locations with
      | Some l =>
          match scan fuel view l 1 [] with
          | Done htmlTab =>
              match miseEnForme (rev htmlTab) with
              | Done doc => Done (html +++ doc)
              | Raise e => Raise e
              | OutOfFuel => OutOfFuel
              end
          | Raise e => Raise e
          | OutOfFuel => OutOfFuel
          end
      | None => Raise NameError
      end
  | Done None => Raise AttributeError
  | Raise e => Raise e
  | OutOfFuel => OutOfFuel
  end.

(** ** [ShowDefinitions.on_hover] *)

(** ['<br>'.join(links)] *)
Fixpoint join (sep : string) (parts : list string) : string :=
  match parts with
  | [] => ""
  | [x] => x
  | x :: rest => x +++ sep +++ join sep rest
  end.

Definition dquote : string := String "034"%char "".

(** One entry of [links]. *)
Definition link (l : Location) : string :=
  "<a href=" +++ dquote +++ location_href l +++ dquote +++ ">"
  +++ format_location l +++ "</a>".

(** The popup template filled with [plural], [links] and [comment]. *)
Definition popup_body (plural links comment : string) : string :=
  "
            <body id=show-definitions>
                <style>
                    body {
                        font-family: sans-serif;
                    }
                    h1 {
                        font-size: 1.1rem;
                        font-weight: bold;
                        margin: 0 0 0.25em 0;
                    }
                    p {
                        font-size: 1.05rem;
                        margin: 0 0 0 0;
                    }

                    ul{
                        margin: 10 0 10 0;
                    }

                </style>
                <h1>Definition" +++ plural +++ ":</h1>
                <p>" +++ links +++ "</p>
                " +++ comment +++ "

            </body>
        ".

(** The test that limits where the popup is shown: [true] when [on_hover]
    returns before looking anything up. *)
Definition hover_rejected (view : View) (point : Z) : bool :=
  let score scopes := negb (score_selector view point scopes =? 0) in
  if score "text.html" && negb (score "text.html source") then
    let is_class := score "meta.attribute-with-value.class" in
    let is_id := score "meta.attribute-with-value.id" in
    negb is_class && negb is_id
  else
    if negb (score "source") then true
    else if score "comment" then true
    else if score "string" && negb (score "string source") then true
    else false.

(** [on_hover]: [Done None] when it returns without a popup, [Done (Some
    body)] when [view.show_popup(body, ...)] is called. *)
Definition on_hover (fuel : nat) (sublime : SublimeModule) (window : Window)
    (view : View) (point hover_zone : Z) : result (option string) :=
  if negb (show_definitions view) then Done None
  else if negb (hover_zone =? HOVER_TEXT sublime) then Done None
  else if hover_rejected view point then Done None
  else
    let '(symbol, locations) := fst (symbol_at_point sublime window view point) in
    let locations := filter_current_symbol window view point symbol locations in
    match locations with
    | [] => Done None
    | _ =>
        let links := join "<br>" (map link locations) in
        let plural := if 1 <? len_list locations then "s" else "" in
        match extractInfo fuel window view locations with
        | Done comment => Done (Some (popup_body plural links comment))
        | Raise e => Raise e
        | OutOfFuel => OutOfFuel
        end
    end.

(** ** Navigation: [open_location], [navigate_to_symbol] *)

(** The flag constants of the host's [sublime] module that the navigation
    code reads. *)
Record SublimeFlags : Type := mkFlags {
  ENCODED_POSITION : Z;
  FORCE_GROUP : Z;
  TRANSIENT : Z;
  KEEP_OPEN_ON_FOCUS_LOST : Z
}.

(** What the plugin asks of the editor's user interface. A view is named
    by its id. *)
Inductive ui_action : Type :=
| OpenFile (target : string) (group : option Z) (flags : Z)
    (* window.open_file(target, group=..., flags=...) *)
| StatusMessage (msg : string)            (* sublime.status_message(msg) *)
| ShowQuickPanel (items : list string) (flags : Z)
    (* window.show_quick_panel(items, on_select, on_highlight, flags) *)
| SelClear (view : Z)                     (* view.sel().clear() *)
| SelAddAll (view : Z) (regions : list Region)  (* view.sel().add_all(regions) *)
| FocusView (view : Z)                    (* window.focus_view(view) *)
| ShowRegion (view : Z) (r : Region).     (* view.show(r) *)

(** The actions made, in order, and the exception that ended them if one
    was raised. *)
Definition UI : Type := (list ui_action * option exn)%type.

Definition open_location (sublime : SublimeFlags) (l : Location) : ui_action :=
  OpenFile (((fname l +++ ":") +++ str_of_int (row l)) +++ ":" +++ str_of_int (col l))
    None (Z.lor (ENCODED_POSITION sublime) (FORCE_GROUP sublime)).

(** The nested [select_entry]. [orig_sel] is read only when [orig_view] is
    true, and it is then the list of regions [navigate_to_symbol] saved. *)
Definition select_entry (sublime : SublimeFlags) (locations : list Location)
    (idx : Z) (orig_view : option View) (orig_sel : list Region) : UI :=
  if 0 <=? idx then
    match nth_error locations (Z.to_nat idx) with
    | Some l => ([open_location sublime l], None)
    | None => ([], Some IndexError)
    end
  else
    match orig_view with
    | Some v =>
        if view_truthy orig_view then
          let restored :=
            [SelClear (view_id v); SelAddAll (view_id v) orig_sel;
             FocusView (view_id v)] in
          match orig_sel with
          | r :: _ => (restored ++ [ShowRegion (view_id v) r], None)
          | [] => (restored, Some IndexError)
          end
        else ([], None)
    | None => ([], None)
    end.

(** [locations[idx]] as Python reads it: a negative index counts from the
    end, an index outside the list raises. *)
Definition py_index {A} (l : list A) (idx : Z) : option A :=
  if 0 <=? idx then nth_error l (Z.to_nat idx)
  else if 0 <=? len_list l + idx then nth_error l (Z.to_nat (len_list l + idx))
  else None.

(** The nested [highlight_entry]; [active_group] is
    [window.active_group()]. *)
Definition highlight_entry (sublime : SublimeFlags) (active_group : Z)
    (locations : list Location) (idx : Z) : UI :=
  match py_index locations idx with
  | Some l =>
      ([OpenFile (((fname l +++ ":") +++ str_of_int (row l)) +++ ":"
                  +++ str_of_int (col l))
          (Some active_group)
          (Z.lor (Z.lor (TRANSIENT sublime) (ENCODED_POSITION sublime))
             (FORCE_GROUP sublime))],
       None)
  | None => ([], Some IndexError)
  end.

(** [navigate_to_symbol]; [view] may be [None], and [view.window()] is
    then an [AttributeError]. The callbacks given to the quick panel are
    [select_entry] and [highlight_entry] on the same [locations]. *)
Definition navigate_to_symbol (sublime : SublimeFlags) (view : option View)
    (symbol : string) (locations : list Location) : UI :=
  if len_list locations =? 0 then
    ([StatusMessage ("Unable to find " +++ symbol)], None)
  else if len_list locations =? 1 then
    match view with
    | None => ([], Some AttributeError)
    | Some _ =>
        match nth_error locations 0 with
        | Some l => ([open_location sublime l], None)
        | None => ([], Some IndexError)
        end
    end
  else
    match view with
    | None => ([], Some AttributeError)
    | Some _ =>
        ([ShowQuickPanel (map format_location locations)
            (KEEP_OPEN_ON_FOCUS_LOST sublime)], None)
    end.

(** ** [ContextGotoDefinitionCommand] *)

Module ContextGotoDefinitionCommand.

(** [event] is the pair [(event["x"], event["y"])]; [window_to_text] is the
    view's method of that name. *)
Definition run {Coord : Type} (flags : SublimeFlags) (sublime : SublimeModule)
    (window : Window) (view : View) (window_to_text : Coord * Coord -> Z)
    (event : Coord * Coord) : UI :=
  let pt := window_to_text event in
  let '(symbol, locations) := fst (symbol_at_point sublime window view pt) in
  navigate_to_symbol flags (Some view) symbol locations.

Definition is_visible {Coord : Type} (sublime : SublimeModule)
    (window : Window) (view : View) (window_to_text : Coord * Coord -> Z)
    (event : Coord * Coord) : bool :=
  let pt := window_to_text event in
  let '(symbol, locations) := fst (symbol_at_point sublime window view pt) in
  0 <? len_list locations.

Definition want_event : bool := true.

End ContextGotoDefinitionCommand.

(** ** The links of the popup: [location_map], [on_navigate] *)

(** [d[k] = v] on a dict kept as the list of its items in insertion
    order: a key already present keeps its place and takes the new
    value. *)
Fixpoint dict_set (d : list (string * Location)) (k : string) (v : Location)
    : list (string * Location) :=
  match d with
  | [] => [(k, v)]
  | (k', v') :: rest =>
      if String.eqb k' k then (k', v) :: rest
      else (k', v') :: dict_set rest k v
  end.

(** [d[k]]; [None] stands for [KeyError]. *)
Fixpoint dict_get (d : list (string * Location)) (k : string) : option Location :=
  match d with
  | [] => None
  | (k', v') :: rest => if String.eqb k' k then Some v' else dict_get rest k
  end.

(** [{location_href(l): l for l in locations}] *)
Definition location_map (locations : list Location) : list (string * Location) :=
  fold_left (fun d l => dict_set d (location_href l) l) locations [].

(** The nested [on_navigate] of [on_hover]; [None] stands for the
    [KeyError] of an [href] that is no key of [location_map]. *)
Definition on_navigate (sublime : SublimeFlags) (locations : list Location)
    (href : string) : option ui_action :=
  match dict_get (location_map locations) href with
  | Some l => Some (open_location sublime l)
  | None => None
  end.

(** * Vocabulary of the properties *)

(** The open-file entries of [O] whose path is that of [l], in open-file
    order. *)
Definition same_path (O : list Location) (l : Location) : list Location :=
  filter (fun ofl => String.eqb (fname l) (fname ofl)) O.

(** The entry standing for the index entry [l] when paths are distinct:
    the open-file entry of the same path if there is one, [l] otherwise. *)
Definition substitute (O : list Location) (l : Location) : Location :=
  match List.find (fun ofl => String.eqb (fname ofl) (fname l)) O with
  | Some ofl => ofl
  | None => l
  end.

(** [l1] is [l2] with some entries left out: same entries, same relative
    order. *)
Inductive subsequence {A : Type} : list A -> list A -> Prop :=
| subsequence_nil : subsequence [] []
| subsequence_drop x l1 l2 : subsequence l1 l2 -> subsequence l1 (x :: l2)
| subsequence_keep x l1 l2 : subsequence l1 l2 -> subsequence (x :: l1) (x :: l2).

(** The test of [filter_current_symbol] on one entry: the entry is in the
    hovered view and [point] is within the span of its symbol. *)
Definition on_hovered_symbol (window : Window) (view : View) (point : Z)
    (symbol : string) (l : Location) : bool :=
  match_view window (fname l) view
  && ((text_point view (row l - 1) (col l) <=? point)
      && (point <=? text_point view (row l - 1) (col l) + len symbol)).

(** The indented fragment a continuation line adds to a [@param] or
    [@return] entry. *)
Definition continuation (ligne : string) : string :=
  "<p style='margin-left : 10px;'>" +++ ligne +++ "</p>".

(** What the classification loop maintains: when [last] names the
    parameter tag, or the return tag, the bucket of that tag has an
    entry. *)
Definition tagged_bucket_filled (b : Buckets) : Prop :=
  (last b = "@param" -> inputParam b <> [])
  /\ (last b = "@return" -> outputParam b <> []).

(** Sample locations: two index entries, and open-file entries of the
    paths [b] and [c]. *)
Definition loc_a : Location := mkLocation "a" "a" 1 0.
Definition loc_b : Location := mkLocation "b" "b" 2 0.
Definition loc_b_open : Location := mkLocation "b" "b" 9 9.
Definition loc_b_open' : Location := mkLocation "b" "b" 7 7.
Definition loc_c_open : Location := mkLocation "c" "c" 3 0.

(** A buffer given by its lines. Points are numbered so that line [r]
    starts at [1000 * r]; a row outside the buffer reads as an empty line.
    The word at a point and the expanded range at a point are the two
    regions given. *)
Definition buffer_view (id : Z) (name : option string) (lines : list string)
    (word_region expanded_region : Region) : View :=
  mkView id name
    (fun r c => 1000 * r + c)
    (fun pt =>
       let r := pt / 1000 in
       (1000 * r, 1000 * r + len (nth (Z.to_nat r) lines "")))
    (fun _ => word_region)
    (fun _ _ _ => expanded_region)
    (fun '(a, b) =>
       if a <? 0 then ""
       else String.substring (Z.to_nat (a mod 1000)) (Z.to_nat (b - a))
              (nth (Z.to_nat (a / 1000)) lines ""))
    (fun _ selector => if String.eqb selector "source" then 1 else 0)
    true.

(** The host constants, as the editor defines them. *)
Definition sample_sublime : SublimeModule := mkSublime 1 2 1.

(** A one-line buffer [foo.bar()] with the word [foo] under the point. *)
Definition sample_view : View :=
  buffer_view 1 (Some "main.py") ["foo.bar()"] (0, 3) (0, 9).

(** A window whose index knows [foo] only. *)
Definition sample_window : Window :=
  mkWindow
    (fun symbol => if String.eqb symbol "foo" then [loc_a; loc_b] else [])
    (fun symbol => if String.eqb symbol "foo" then [loc_b_open; loc_c_open] else [])
    (fun _ => None).

(** A window whose index knows [foo.bar()] as written. *)
Definition sample_window_qualified : Window :=
  mkWindow
    (fun symbol => if String.eqb symbol "foo.bar()" then [loc_a] else [])
    (fun _ => [])
    (fun _ => None).

(** Two open files, each with a one-line comment above the definition of
    [foo] on its third line. *)
Definition doc_view_a : View :=
  buffer_view 2 (Some "a.py")
    ["import os"; "# @desc doc of a"; "def foo():"] (0, 0) (0, 0).
Definition doc_view_b : View :=
  buffer_view 3 (Some "b.py")
    ["import sys"; "# @desc doc of b"; "def foo():"] (0, 0) (0, 0).
Definition doc_loc_a : Location := mkLocation "a.py" "a.py" 3 4.
Definition doc_loc_b : Location := mkLocation "b.py" "b.py" 3 4.

(** The hovered buffer [foo()], in a window where both files are open and
    the index finds [foo] in both. *)
Definition hover_view : View :=
  buffer_view 1 (Some "main.py") ["foo()"] (0, 3) (0, 5).
Definition hover_window : Window :=
  mkWindow
    (fun symbol => if String.eqb symbol "foo" then [doc_loc_a; doc_loc_b] else [])
    (fun _ => [])
    (fun path =>
       if String.eqb path "a.py" then Some doc_view_a
       else if String.eqb path "b.py" then Some doc_view_b
       else None).

(** A definition on the third line, under a line of three [#]. *)
Definition short_rule_view : View :=
  buffer_view 4 (Some "h.py") ["END FUNCTION"; "###"; "def f():"] (0, 0) (0, 0).
Definition short_rule_loc : Location := mkLocation "h.py" "h.py" 3 0.
Definition short_rule_window : Window :=
  mkWindow (fun _ => []) (fun _ => []) (fun _ => Some short_rule_view).

(** A definition on the fourth line, under a comment, a rule of eight [#]
    and a line of code. *)
Definition ruled_view : View :=
  buffer_view 5 (Some "r.py")
    ["x = 1"; "########"; "# text"; "def f():"] (0, 0) (0, 0).
Definition ruled_loc : Location := mkLocation "r.py" "r.py" 4 0.

(** The four divider patterns of the extractor. *)
Definition is_divider (temp : string) : bool :=
  contains "######" temp || contains "======" temp
  || contains "-----" temp || contains "<><><" temp.

(** The lines that end the extractor's loop: those that hold the
    terminator, and those that are not empty and hold neither [#] nor
    [FUNCTION]. *)
Definition stops (temp : string) : bool :=
  contains "END FUNCTION" temp
  || (negb (contains "#" temp) && negb (len temp =? 0)
      && negb (contains "FUNCTION" temp)).

(** What a line that does not end the loop adds to [htmlTab]: the text
    after its first [#] when it has one and holds no divider pattern. *)
Definition extracted (temp : string) : list string :=
  if contains "#" temp && negb (is_divider temp)
  then [slice_from temp (find "#" temp + 1)] else [].

(** A view of a buffer where every line reads as empty. *)
Definition blank_view : View :=
  mkView 6 None (fun r c => r) (fun pt => (pt, pt)) (fun pt => (pt, pt))
    (fun pt _ _ => (pt, pt)) (fun _ => "") (fun _ _ => 0) true.

(** The texts [l] wrapped one by one between [opening] and [closing] and
    put end to end. *)
Fixpoint wrap_all (opening closing : string) (l : list string) : string :=
  match l with
  | [] => ""
  | x :: rest => opening +++ x +++ closing +++ wrap_all opening closing rest
  end.

(** Entries of [main.py]: the [foo] at the start of its first line, and
    a symbol further on the same line. *)
Definition loc_hovered : Location := mkLocation "main.py" "main.py" 1 0.
Definition loc_later : Location := mkLocation "main.py" "main.py" 1 5.

(** An unsaved buffer holding [foo], in a window that knows it under its
    synthetic path. *)
Definition untitled_view : View :=
  buffer_view 7 None ["foo"] (0, 3) (0, 3).
Definition untitled_window : Window :=
  mkWindow (fun _ => []) (fun _ => [])
    (fun path =>
       if String.eqb path "<untitled 7>" then Some untitled_view else None).
Definition loc_untitled : Location :=
  mkLocation "<untitled 7>" "untitled" 1 0.

(** * Properties *)

(** ** The location merge *)

Section Merge.

Variable O : list Location.

Lemma file_in_location_list_app name l1 l2 :
  file_in_location_list name (l1 ++ l2)
  = file_in_location_list name l1 || file_in_location_list name l2.
Proof.
  induction l1 as [|x l1 IH]; simpl; [reflexivity|].
  destruct (String.eqb (fname x) name); simpl; auto.
Qed.

Lemma file_in_location_list_true name ls :
  file_in_location_list name ls = true <-> exists x, In x ls /\ fname x = name.
Proof.
  induction ls as [|y ls IH]; simpl.
  - split; [discriminate | intros (x & [] & _)].
  - destruct (String.eqb_spec (fname y) name) as [E|E].
    + split; [intros _; exists y; auto | reflexivity].
    + rewrite IH. split.
      * intros (x & Hx & Hn). exists x; auto.
      * intros (x & [->|Hx] & Hn); [contradiction | exists x; auto].
Qed.

Lemma file_in_location_list_false name ls :
  file_in_location_list name ls = false <-> forall x, In x ls -> fname x <> name.
Proof.
  split.
  - intros H x Hx E.
    assert (file_in_location_list name ls = true) as T
        by (apply file_in_location_list_true; eauto).
    congruence.
  - intros H. destruct (file_in_location_list name ls) eqn:E; [|reflexivity].
    apply file_in_location_list_true in E as (x & Hx & Hn).
    exfalso. exact (H x Hx Hn).
Qed.

Lemma file_in_same_path name l :
  file_in_location_list name (same_path O l)
  = String.eqb (fname l) name && file_in_location_list name O.
Proof.
  unfold same_path. induction O as [|o os IH]; simpl.
  - now rewrite andb_false_r.
  - destruct (String.eqb_spec (fname l) (fname o)) as [E|E]; simpl.
    + rewrite IH, <- E.
      destruct (String.eqb (fname l) name); reflexivity.
    + rewrite IH.
      destruct (String.eqb_spec (fname l) name) as [E1|E1]; simpl; [|reflexivity].
      destruct (String.eqb_spec (fname o) name) as [E2|E2]; [congruence|reflexivity].
Qed.

Lemma override_with_open_files_spec l os locations ofl_ignore :
  override_with_open_files l os (locations, ofl_ignore)
  = (locations ++ filter (fun ofl => String.eqb (fname l) (fname ofl)) os,
     ofl_ignore ++ filter (fun ofl => String.eqb (fname l) (fname ofl)) os).
Proof.
  unfold override_with_open_files.
  revert locations ofl_ignore.
  induction os as [|o os IH]; intros; simpl.
  - now rewrite !app_nil_r.
  - destruct (String.eqb (fname l) (fname o)); rewrite IH; simpl.
    + now rewrite <- !app_assoc.
    + reflexivity.
Qed.

(** One iteration of the index loop, by cases. *)
Lemma index_step_spec st l :
  index_step O st l =
  if file_in_location_list (fname l) O then
    if file_in_location_list (fname l) (snd st) then st
    else (fst st ++ same_path O l, snd st ++ same_path O l)
  else (fst st ++ [l], snd st).
Proof.
  unfold index_step. destruct st as [locations ofl_ignore]; simpl.
  destruct (file_in_location_list (fname l) O); [|reflexivity].
  destruct (file_in_location_list (fname l) ofl_ignore); simpl; [reflexivity|].
  apply override_with_open_files_spec.
Qed.

Lemma index_loop_cons l I st :
  index_loop O (l :: I) st = index_loop O I (index_step O st l).
Proof. reflexivity. Qed.

Lemma index_loop_app I1 I2 st :
  index_loop O (I1 ++ I2) st = index_loop O I2 (index_loop O I1 st).
Proof. apply fold_left_app. Qed.

(** The paths of [ofl_ignore] after the index loop: those it had, and
    the paths common to the index list and the open-file list. *)
Lemma index_loop_ignore I : forall st name,
  file_in_location_list name (snd (index_loop O I st))
  = file_in_location_list name (snd st)
    || (file_in_location_list name I && file_in_location_list name O).
Proof.
  induction I as [|l I IH]; intros st name.
  - simpl. now rewrite orb_false_r.
  - rewrite index_loop_cons, IH, index_step_spec. simpl.
    destruct (file_in_location_list (fname l) O) eqn:HO.
    + destruct (file_in_location_list (fname l) (snd st)) eqn:Hign; simpl.
      * destruct (String.eqb_spec (fname l) name) as [E|E]; [|reflexivity].
        subst name. rewrite Hign. reflexivity.
      * rewrite file_in_location_list_app, file_in_same_path.
        destruct (String.eqb (fname l) name); simpl;
          destruct (file_in_location_list name (snd st));
          destruct (file_in_location_list name O);
          destruct (file_in_location_list name I); reflexivity.
    + simpl. destruct (String.eqb_spec (fname l) name) as [E|E]; [|reflexivity].
      subst name. rewrite HO. simpl. now rewrite andb_false_r.
Qed.

(** What the index loop appends to [locations]: entries whose path is an
    index path and, when it is also an open-file path, was not in
    [ofl_ignore] when the loop started. *)
Lemma index_loop_extends I : forall st,
  exists ext,
    fst (index_loop O I st) = fst st ++ ext /\
    forall x, In x ext ->
      file_in_location_list (fname x) I = true /\
      (file_in_location_list (fname x) O = true ->
       file_in_location_list (fname x) (snd st) = false).
Proof.
  induction I as [|l I IH]; intros st.
  - exists []. simpl. rewrite app_nil_r. split; [reflexivity | intros x []].
  - rewrite index_loop_cons, index_step_spec.
    destruct (file_in_location_list (fname l) O) eqn:HO.
    + destruct (file_in_location_list (fname l) (snd st)) eqn:Hign.
      * destruct (IH st) as (ext & Hext & Hin).
        exists ext. split; [exact Hext|].
        intros x Hx. destruct (Hin x Hx) as [H1 H2]. split; [|exact H2].
        simpl. rewrite H1. now destruct (String.eqb (fname l) (fname x)).
      * destruct (IH (fst st ++ same_path O l, snd st ++ same_path O l))
          as (ext & Hext & Hin).
        simpl in Hext, Hin. exists (same_path O l ++ ext). split.
        { rewrite Hext. now rewrite app_assoc. }
        intros x Hx. apply in_app_or in Hx as [Hx|Hx].
        { unfold same_path in Hx. apply filter_In in Hx as [_ Hx].
          apply String.eqb_eq in Hx. simpl. rewrite Hx, String.eqb_refl.
          split; [reflexivity|]. intros _. now rewrite <- Hx. }
        destruct (Hin x Hx) as [H1 H2]. split.
        { simpl. rewrite H1. now destruct (String.eqb (fname l) (fname x)). }
        intros HxO. specialize (H2 HxO).
        rewrite file_in_location_list_app in H2.
        now apply orb_false_elim in H2.
    + destruct (IH (fst st ++ [l], snd st)) as (ext & Hext & Hin).
      simpl in Hext, Hin. exists (l :: ext). split.
      { rewrite Hext. now rewrite <- app_assoc. }
      intros x [<-|Hx].
      { simpl. rewrite String.eqb_refl. split; [reflexivity|]. congruence. }
      destruct (Hin x Hx) as [H1 H2]. split; [|exact H2].
      simpl. rewrite H1. now destruct (String.eqb (fname l) (fname x)).
Qed.

Lemma open_file_loop_spec ofl_ignore os : forall locations,
  open_file_loop ofl_ignore os locations
  = locations
    ++ filter (fun ofl => negb (file_in_location_list (fname ofl) ofl_ignore)) os.
Proof.
  unfold open_file_loop.
  induction os as [|o os IH]; intros; simpl.
  - now rewrite app_nil_r.
  - rewrite IH.
    destruct (file_in_location_list (fname o) ofl_ignore); simpl;
      [reflexivity | now rewrite <- app_assoc].
Qed.

Lemma merge_unfold I :
  merge I O
  = fst (index_loop O I ([], []))
    ++ filter
         (fun ofl =>
            negb (file_in_location_list (fname ofl) (snd (index_loop O I ([], [])))))
         O.
Proof.
  unfold merge. destruct (index_loop O I ([], [])) as [locations ofl_ignore].
  apply open_file_loop_spec.
Qed.

Lemma substitute_absent l :
  file_in_location_list (fname l) O = false -> substitute O l = l.
Proof.
  unfold substitute. intros H.
  destruct (List.find _ O) as [o|] eqn:F; [|reflexivity].
  apply find_some in F as [Ho E]. apply String.eqb_eq in E.
  rewrite file_in_location_list_false in H. now destruct (H o Ho).
Qed.

Lemma substitute_present l :
  file_in_location_list (fname l) O = true ->
  In (substitute O l) O /\ fname (substitute O l) = fname l.
Proof.
  unfold substitute. intros H.
  destruct (List.find _ O) as [o|] eqn:F.
  - apply find_some in F as [Ho E]. apply String.eqb_eq in E. auto.
  - apply file_in_location_list_true in H as (x & Hx & E).
    apply (find_none _ _ F) in Hx. rewrite E, String.eqb_refl in Hx.
    discriminate.
Qed.

Lemma substitute_fname l : fname (substitute O l) = fname l.
Proof.
  destruct (file_in_location_list (fname l) O) eqn:H.
  - now apply substitute_present.
  - now rewrite substitute_absent.
Qed.

(** With distinct open-file paths, the entries of a present path are
    the single entry [substitute] picks. *)
Lemma same_path_distinct l :
  NoDup (map fname O) ->
  file_in_location_list (fname l) O = true ->
  same_path O l = [substitute O l].
Proof.
  unfold same_path, substitute.
  induction O as [|o os IH]; simpl; intros ND H; [discriminate|].
  inversion ND as [|? ? Hnotin ND']; subst.
  rewrite (String.eqb_sym (fname l) (fname o)).
  destruct (String.eqb_spec (fname o) (fname l)) as [E|E].
  - f_equal.
    assert (forall x, In x os -> String.eqb (fname l) (fname x) = false) as Hno.
    { intros x Hx. apply String.eqb_neq. intros E'.
      apply Hnotin. rewrite E, E'. now apply in_map. }
    clear -Hno. induction os as [|y ys IHy]; simpl; [reflexivity|].
    rewrite (Hno y (or_introl eq_refl)). apply IHy.
    intros x Hx. apply Hno. now right.
  - now apply IH.
Qed.

Lemma index_loop_distinct I : forall st,
  NoDup (map fname I) -> NoDup (map fname O) ->
  (forall l, In l I -> file_in_location_list (fname l) (snd st) = false) ->
  fst (index_loop O I st) = fst st ++ map (substitute O) I.
Proof.
  induction I as [|l I IH]; intros st NDI NDO Hfresh.
  - simpl. now rewrite app_nil_r.
  - inversion NDI as [|? ? Hnotin NDI']; subst.
    rewrite index_loop_cons, index_step_spec.
    rewrite (Hfresh l (or_introl eq_refl)).
    destruct (file_in_location_list (fname l) O) eqn:HO.
    + rewrite IH; auto.
      * simpl. rewrite same_path_distinct by assumption.
        now rewrite <- app_assoc.
      * intros l' Hl'. simpl.
        rewrite file_in_location_list_app, (Hfresh l' (or_intror Hl')).
        rewrite file_in_same_path.
        destruct (String.eqb_spec (fname l) (fname l')) as [E|E]; [|reflexivity].
        exfalso. apply Hnotin. rewrite E. now apply in_map.
    + rewrite IH; auto.
      * simpl. rewrite substitute_absent by assumption.
        now rewrite <- app_assoc.
      * intros l' Hl'. simpl. apply Hfresh. now right.
Qed.

End Merge.

(** C1. When the paths are pairwise distinct within the index list [I] and
    within the open-file list [O], the merge is [I] taken in order, each
    entry whose path is also in [O] replaced at its position by the
    open-file entry of that path and each other entry kept as it is,
    followed by the entries of [O] whose path is not in [I], in the order
    of [O]. In particular the paths of the first part are the paths of
    [I], in order. *)
Theorem merge_distinct_paths (I O : list Location) :
  NoDup (map fname I) -> NoDup (map fname O) ->
  merge I O
  = map (substitute O) I
    ++ filter (fun ofl => negb (file_in_location_list (fname ofl) I)) O
  /\ map fname (map (substitute O) I) = map fname I
  /\ (forall l, In l I -> file_in_location_list (fname l) O = false ->
      substitute O l = l)
  /\ (forall l, In l I -> file_in_location_list (fname l) O = true ->
      In (substitute O l) O /\ fname (substitute O l) = fname l).
Proof.
  intros NDI NDO. repeat split.
  - rewrite merge_unfold, index_loop_distinct by (auto; intros; reflexivity).
    simpl. f_equal. apply filter_ext_in. intros o Ho.
    rewrite index_loop_ignore. simpl.
    assert (file_in_location_list (fname o) O = true) as ->
        by (apply file_in_location_list_true; eauto).
    now rewrite andb_true_r.
  - rewrite map_map. apply map_ext. intros l. apply substitute_fname.
  - intros l _ H. now apply substitute_absent.
  - now apply substitute_present.
  - now apply substitute_present.
Qed.

(** The merge of [[a; b]] with [[b; c]]: the open-file entry of [b] takes
    the place of the index entry. *)
Lemma merge_distinct_paths_witness :
  merge [loc_a; loc_b] [loc_b_open; loc_c_open]
  = map (substitute [loc_b_open; loc_c_open]) [loc_a; loc_b]
    ++ filter (fun ofl => negb (file_in_location_list (fname ofl) [loc_a; loc_b]))
         [loc_b_open; loc_c_open]
  /\ merge [loc_a; loc_b] [loc_b_open; loc_c_open]
     = [loc_a; loc_b_open; loc_c_open].
Proof.
  split; [|reflexivity].
  apply (merge_distinct_paths [loc_a; loc_b] [loc_b_open; loc_c_open]).
  - repeat constructor; simpl; intuition discriminate.
  - repeat constructor; simpl; intuition discriminate.
Defined.

(** C9. When the path of the index entry [l] is an open-file path and [l]
    is the first index entry of that path, the merge is: what the entries
    before [l] produced, then all the open-file entries of that path, in
    open-file order, then a rest; and neither the part before nor the rest
    holds an entry of that path, so later index entries of the path and
    the closing pass over the open-file list add none. *)
Theorem merge_repeated_path (I1 I2 O : list Location) (l : Location) :
  file_in_location_list (fname l) O = true ->
  file_in_location_list (fname l) I1 = false ->
  exists rest,
    merge (I1 ++ l :: I2) O
    = fst (index_loop O I1 ([], [])) ++ same_path O l ++ rest
    /\ (forall x, In x (fst (index_loop O I1 ([], []))) -> fname x <> fname l)
    /\ (forall x, In x rest -> fname x <> fname l).
Proof.
  intros HO HI1.
  pose (st1 := index_loop O I1 ([], [])).
  pose (st2 := (fst st1 ++ same_path O l, snd st1 ++ same_path O l)).
  assert (file_in_location_list (fname l) (snd st1) = false) as Hign1.
  { unfold st1. rewrite index_loop_ignore. simpl. now rewrite HI1. }
  assert (file_in_location_list (fname l) (snd st2) = true) as Hign2.
  { unfold st2. simpl.
    rewrite file_in_location_list_app, file_in_same_path, String.eqb_refl, HO.
    apply orb_true_r. }
  destruct (index_loop_extends O I2 st2) as (ext2 & Hext2 & Hin2).
  exists (ext2
          ++ filter
               (fun ofl =>
                  negb (file_in_location_list (fname ofl)
                          (snd (index_loop O I2 st2)))) O).
  assert (index_loop O (I1 ++ l :: I2) ([], []) = index_loop O I2 st2) as Hloop.
  { rewrite index_loop_app, index_loop_cons, index_step_spec.
    fold st1. now rewrite HO, Hign1. }
  split; [|split].
  - rewrite merge_unfold, Hloop, Hext2. unfold st2. simpl.
    now rewrite <- !app_assoc.
  - destruct (index_loop_extends O I1 ([], [])) as (ext1 & Hext1 & Hin1).
    fold st1 in Hext1. simpl in Hext1. fold st1. rewrite Hext1.
    intros x Hx E. apply Hin1 in Hx as [Hx _].
    rewrite E in Hx. congruence.
  - intros x Hx E. apply in_app_or in Hx as [Hx|Hx].
    + apply Hin2 in Hx as [_ Hx]. rewrite E in Hx.
      specialize (Hx HO). congruence.
    + apply filter_In in Hx as [_ Hx]. rewrite E in Hx.
      rewrite index_loop_ignore, Hign2 in Hx. discriminate.
Qed.

(** An index list naming [b] twice and an open-file list with two entries
    of [b]. *)
Lemma merge_repeated_path_witness :
  (exists rest,
    merge ([loc_a] ++ loc_b :: [loc_b]) [loc_b_open; loc_c_open; loc_b_open']
    = fst (index_loop [loc_b_open; loc_c_open; loc_b_open'] [loc_a] ([], []))
      ++ same_path [loc_b_open; loc_c_open; loc_b_open'] loc_b ++ rest
    /\ (forall x,
          In x (fst (index_loop [loc_b_open; loc_c_open; loc_b_open'] [loc_a] ([], []))) ->
          fname x <> fname loc_b)
    /\ (forall x, In x rest -> fname x <> fname loc_b))
  /\ merge ([loc_a] ++ loc_b :: [loc_b]) [loc_b_open; loc_c_open; loc_b_open']
     = [loc_a; loc_b_open; loc_b_open'; loc_c_open].
Proof.
  split; [|reflexivity].
  apply (merge_repeated_path [loc_a] [loc_b]
           [loc_b_open; loc_c_open; loc_b_open'] loc_b); reflexivity.
Defined.

(** ** Symbol lookup and resolution *)

(** C4. A symbol whose stripped length is below 3 yields the empty
    location list, and the trace of host calls is empty: neither the index
    search nor the open-files search is made. *)
Theorem lookup_symbol_short (window : Window) (symbol : string) :
  len (strip symbol) < 3 ->
  fst (lookup_symbol window symbol) = []
  /\ snd (lookup_symbol window symbol) = [].
Proof.
  intros H. unfold lookup_symbol.
  apply Z.ltb_lt in H. rewrite H. split; reflexivity.
Qed.

(** The symbols [ab] and [ a ] of the spec, on a window that knows many
    symbols. *)
Lemma lookup_symbol_short_witness :
  (fst (lookup_symbol sample_window "ab") = []
   /\ snd (lookup_symbol sample_window "ab") = [])
  /\ (fst (lookup_symbol sample_window " a ") = []
      /\ snd (lookup_symbol sample_window " a ") = []).
Proof.
  split.
  - apply (lookup_symbol_short sample_window "ab"). vm_compute. reflexivity.
  - apply (lookup_symbol_short sample_window " a "). vm_compute. reflexivity.
Defined.

(** [lookup_symbol] never asks the view for a word. *)
Lemma lookup_symbol_trace (window : Window) (symbol : string) :
  snd (lookup_symbol window symbol) = []
  \/ snd (lookup_symbol window symbol)
     = [EvLookupInIndex symbol; EvLookupInOpenFiles symbol].
Proof.
  unfold lookup_symbol. destruct (len (strip symbol) <? 3); [left|right]; reflexivity.
Qed.

Lemma lookup_symbol_no_word (window : Window) (symbol : string) (pt : Z) :
  ~ In (EvWord pt) (snd (lookup_symbol window symbol)).
Proof.
  destruct (lookup_symbol_trace window symbol) as [-> | ->]; simpl;
    intuition discriminate.
Qed.

Lemma len_list_zero {A} (l : list A) : (len_list l =? 0) = true <-> l = [].
Proof.
  unfold len_list. destruct l; simpl; split; intros H;
    try reflexivity; try discriminate.
Qed.

(** C5. With [expanded] the symbol of the expanded range and [first] its
    lookup: the view is asked for the word at the point exactly when
    [first] found no location; if [first] found one, the result is
    [expanded] with the locations of [first] and the trace ends with the
    calls of [first]; if it found none, the result is the word with the
    locations of its own lookup, made after the word was read. *)
Theorem symbol_at_point_fallback (sublime : SublimeModule) (window : Window)
    (view : View) (pt : Z) :
  let expanded :=
    substr view
      (expand_by_class view pt
         (Z.lor (CLASS_WORD_START sublime) (CLASS_WORD_END sublime)) "[]{}()<>:.") in
  let narrow := substr view (word view pt) in
  let first := lookup_symbol window expanded in
  let second := lookup_symbol window narrow in
  let run := symbol_at_point sublime window view pt in
  ((exists pt', In (EvWord pt') (snd run)) <-> fst first = [])
  /\ (fst first <> [] ->
      fst run = (expanded, fst first)
      /\ snd run = EvExpandByClass pt :: snd first)
  /\ (fst first = [] ->
      fst run = (narrow, fst second)
      /\ snd run = EvExpandByClass pt :: snd first ++ EvWord pt :: snd second).
Proof.
  intros expanded narrow first second run.
  assert (fst first <> [] ->
          run = ((expanded, fst first), EvExpandByClass pt :: snd first)) as Hne.
  { intros H. unfold run, symbol_at_point, call, bind. fold expanded. fold first.
    destruct first as [locations t1]. simpl in *.
    destruct (len_list locations =? 0) eqn:E.
    - apply len_list_zero in E. contradiction.
    - simpl. now rewrite app_nil_r. }
  assert (fst first = [] ->
          run = ((narrow, fst second),
                 EvExpandByClass pt :: snd first ++ EvWord pt :: snd second)) as He.
  { intros H. unfold run, symbol_at_point, call, bind. fold expanded. fold first.
    destruct first as [locations t1]. simpl in *. subst locations. simpl.
    fold narrow. fold second. destruct second as [locations2 t2]. simpl.
    now rewrite app_nil_r. }
  split; [|split].
  - split.
    + intros (pt' & Hin). destruct (fst first) eqn:E; [reflexivity|].
      exfalso. rewrite Hne in Hin by discriminate. simpl in Hin.
      destruct Hin as [Hin|Hin]; [discriminate|].
      exact (lookup_symbol_no_word window expanded pt' Hin).
    + intros H. exists pt. rewrite (He H). simpl. right.
      apply in_or_app. right. now left.
  - intros H. now rewrite (Hne H).
  - intros H. now rewrite (He H).
Qed.

(** On [foo.bar()]: a window that knows only [foo] falls back to the word,
    and a window that knows [foo.bar()] does not read the word. *)
Lemma symbol_at_point_fallback_witness :
  (fst (symbol_at_point sample_sublime sample_window sample_view 0)
   = ("foo", [loc_a; loc_b_open; loc_c_open])
   /\ snd (symbol_at_point sample_sublime sample_window sample_view 0)
      = [EvExpandByClass 0; EvLookupInIndex "foo.bar()";
         EvLookupInOpenFiles "foo.bar()"; EvWord 0;
         EvLookupInIndex "foo"; EvLookupInOpenFiles "foo"])
  /\ (fst (symbol_at_point sample_sublime sample_window_qualified sample_view 0)
      = ("foo.bar()", [loc_a])
      /\ snd (symbol_at_point sample_sublime sample_window_qualified sample_view 0)
         = [EvExpandByClass 0; EvLookupInIndex "foo.bar()";
            EvLookupInOpenFiles "foo.bar()"]).
Proof.
  split.
  - apply (symbol_at_point_fallback sample_sublime sample_window sample_view 0).
    reflexivity.
  - apply (symbol_at_point_fallback sample_sublime sample_window_qualified
             sample_view 0).
    vm_compute. discriminate.
Defined.

(** ** Facts on the string primitives *)

Lemma startswith_iff (p s : string) :
  startswith p s = true <-> exists r, s = p +++ r.
Proof.
  revert s. induction p as [|a p IH]; intros s; simpl.
  - split; [intros _; now exists s | reflexivity].
  - destruct s as [|b s].
    + split; [discriminate | intros (r & Hr); discriminate].
    + destruct (Ascii.eqb_spec a b) as [->|N].
      * rewrite IH. split; intros (r & Hr); exists r; [now rewrite Hr|].
        now inversion Hr.
      * split; [discriminate | intros (r & Hr); inversion Hr; congruence].
Qed.

(** [pat in s] holds exactly when [s] is some text, [pat], some text. *)
Lemma contains_iff (pat s : string) :
  contains pat s = true <-> exists a b, s = a +++ pat +++ b.
Proof.
  induction s as [|c s IH].
  - simpl. destruct (startswith pat "") eqn:E.
    + apply startswith_iff in E as (r & Hr).
      split; [intros _; now exists "", r | reflexivity].
    + split; [discriminate|].
      intros (a & b & H). destruct a as [|x a]; [|discriminate].
      simpl in H. assert (startswith pat "" = true) as T
          by (apply startswith_iff; now exists b).
      congruence.
  - change (contains pat (String c s))
      with (if startswith pat (String c s) then true else contains pat s).
    destruct (startswith pat (String c s)) eqn:E.
    + apply startswith_iff in E as (r & Hr).
      split; [intros _; now exists "", r | reflexivity].
    + rewrite IH. split.
      * intros (a & b & H). exists (String c a), b. simpl. now rewrite H.
      * intros (a & b & H). destruct a as [|x a].
        -- simpl in H. assert (startswith pat (String c s) = true) as T
               by (apply startswith_iff; now exists b).
           congruence.
        -- simpl in H. inversion H. now exists a, b.
Qed.

Lemma append_assoc (a b c : string) : (a +++ b) +++ c = a +++ b +++ c.
Proof. induction a as [|x a IH]; simpl; [reflexivity | now rewrite IH]. Qed.

Lemma append_nil_r (a : string) : a +++ "" = a.
Proof. induction a as [|x a IH]; simpl; [reflexivity | now rewrite IH]. Qed.

(** A text that contains [p +++ q] contains [q]. *)
Lemma contains_suffix_of_pattern (p q s : string) :
  contains (p +++ q) s = true -> contains q s = true.
Proof.
  rewrite !contains_iff. intros (a & b & H).
  exists (a +++ p), b. now rewrite H, !append_assoc.
Qed.

(** A text that contains [p +++ q] contains [p]. *)
Lemma contains_prefix_of_pattern (p q s : string) :
  contains (p +++ q) s = true -> contains p s = true.
Proof.
  rewrite !contains_iff. intros (a & b & H).
  exists a, (q +++ b). now rewrite H, !append_assoc.
Qed.

Lemma find_from_bounds (pat s : string) : forall k,
  find_from pat s k = -1 \/ k <= find_from pat s k.
Proof.
  induction s as [|c s IH]; intros k; simpl.
  - destruct (startswith pat ""); [right; lia | now left].
  - destruct (startswith pat (String c s)); [right; lia|].
    destruct (IH (k + 1)) as [H|H]; [now left | right; lia].
Qed.

Lemma find_from_absent (pat s : string) : forall k,
  0 <= k -> (find_from pat s k = -1 <-> contains pat s = false).
Proof.
  induction s as [|c s IH]; intros k Hk.
  - simpl. destruct (startswith pat ""); split; intros; try reflexivity;
      try discriminate; lia.
  - change (find_from pat (String c s) k)
      with (if startswith pat (String c s) then k else find_from pat s (k + 1)).
    change (contains pat (String c s))
      with (if startswith pat (String c s) then true else contains pat s).
    destruct (startswith pat (String c s)).
    + split; intros; [lia | discriminate].
    + apply IH. lia.
Qed.

(** [s.find(pat)] is -1 exactly when [pat in s] is false. *)
Lemma find_absent (pat s : string) :
  find pat s = -1 <-> contains pat s = false.
Proof. apply find_from_absent. lia. Qed.

Lemma len_zero (s : string) : (len s =? 0) = true <-> s = "".
Proof.
  unfold len. destruct s; simpl; split; intros H;
    try reflexivity; try discriminate.
Qed.

(** Lower-casing never makes an [@]. *)
Lemma lower_char_at (c : ascii) : lower_char c = "@"%char -> c = "@"%char.
Proof.
  destruct c as [[] [] [] [] [] [] [] []]; vm_compute; intros H;
    try reflexivity; discriminate H.
Qed.

Lemma contains_char_cons (a c : ascii) (s : string) :
  contains (String a "") (String c s)
  = if Ascii.eqb a c then true else contains (String a "") s.
Proof.
  change (contains (String a "") (String c s))
    with (if startswith (String a "") (String c s) then true
          else contains (String a "") s).
  simpl startswith. now destruct (Ascii.eqb a c).
Qed.

Lemma contains_at_lower (s : string) :
  contains "@" (lower s) = true -> contains "@" s = true.
Proof.
  induction s as [|c s IH]; [discriminate|].
  change (lower (String c s)) with (String (lower_char c) (lower s)).
  rewrite !contains_char_cons.
  destruct (Ascii.eqb_spec "@"%char (lower_char c)) as [E|E].
  - symmetry in E. apply lower_char_at in E. subst c. reflexivity.
  - destruct (Ascii.eqb "@" c); [reflexivity|]. exact IH.
Qed.

(** A line without [@] holds none of the three tags, in any case. *)
Lemma no_at_no_tag (tag s : string) :
  contains "@" s = false -> contains ("@" +++ tag) (lower s) = false.
Proof.
  intros H. destruct (contains ("@" +++ tag) (lower s)) eqn:E; [|reflexivity].
  apply contains_prefix_of_pattern, contains_at_lower in E. congruence.
Qed.

(** Runs of [#]. *)
Lemma replicate_hash_no_terminator (n : nat) :
  contains "END FUNCTION" (replicate n "#") = false.
Proof. induction n as [|n IH]; [reflexivity | exact IH]. Qed.

Lemma replicate_hash_divider (n : nat) :
  (6 <= n)%nat -> contains "######" (replicate n "#") = true.
Proof.
  intros H. do 6 (destruct n as [|n]; [lia|]). reflexivity.
Qed.

Lemma replicate_hash_find (n : nat) :
  (1 <= n)%nat -> find "#" (replicate n "#") = 0.
Proof. intros H. destruct n as [|n]; [lia | reflexivity]. Qed.

(** ** [filter_current_symbol] *)

Lemma subsequence_filter {A} (f : A -> bool) (l : list A) :
  subsequence (filter f l) l.
Proof.
  induction l as [|x l IH]; simpl; [constructor|].
  destruct (f x); now constructor.
Qed.

Lemma filter_step_spec window view point symbol new_locations l :
  filter_step window view point symbol new_locations l
  = new_locations
    ++ (if on_hovered_symbol window view point symbol l then [] else [l]).
Proof.
  unfold filter_step, on_hovered_symbol.
  destruct (match_view window (fname l) view); simpl; [|reflexivity].
  destruct ((text_point view (row l - 1) (col l) <=? point)
            && (point <=? text_point view (row l - 1) (col l) + len symbol));
    [now rewrite app_nil_r | reflexivity].
Qed.

Lemma filter_loop_spec window view point symbol locations : forall new_locations,
  fold_left (filter_step window view point symbol) locations new_locations
  = new_locations
    ++ filter (fun l => negb (on_hovered_symbol window view point symbol l))
         locations.
Proof.
  induction locations as [|l ls IH]; intros acc; simpl.
  - now rewrite app_nil_r.
  - rewrite IH, filter_step_spec.
    destruct (on_hovered_symbol window view point symbol l); simpl.
    + now rewrite app_nil_r.
    + now rewrite <- app_assoc.
Qed.

(** When a path refers to the hovered view: the view has a file name and
    the path is that name; or the view has none, the path starts with
    [<untitled ] and the window's open file of that path is a true view
    with the id of the hovered view. *)
Lemma match_view_spec (window : Window) (path : string) (view : View) :
  match_view window path view = true
  <-> file_name view = Some path
      \/ (file_name view = None
          /\ (exists rest, path = "<untitled " +++ rest)
          /\ exists path_view,
               find_open_file window path = Some path_view
               /\ view_id path_view <> 0
               /\ view_id path_view = view_id view).
Proof.
  unfold match_view. destruct (file_name view) as [name|].
  - rewrite String.eqb_eq. split.
    + intros ->. now left.
    + intros [E|[E _]]; [now inversion E | discriminate].
  - destruct (startswith "<untitled " path) eqn:P.
    + apply startswith_iff in P.
      destruct (find_open_file window path) as [path_view|].
      * unfold view_truthy.
        destruct (Z.eqb_spec (view_id path_view) 0) as [Z0|N0]; simpl.
        -- split; [discriminate|].
           intros [E|(_ & _ & pv & E & N & _)]; [discriminate|].
           inversion E. subst pv. contradiction.
        -- rewrite Z.eqb_eq. split.
           ++ intros E. right. split; [reflexivity|]. split; [exact P|].
              exists path_view. auto.
           ++ intros [E|(_ & _ & pv & E & _ & I)]; [discriminate|].
              inversion E. now subst pv.
      * split; [discriminate|].
        intros [E|(_ & _ & pv & E & _)]; discriminate.
    + split; [discriminate|].
      intros [E|(_ & P' & _)]; [discriminate|].
      apply startswith_iff in P'. congruence.
Qed.

(** C10. [filter_current_symbol] keeps, in order and unchanged, the
    entries that fail the test [on_hovered_symbol], so its result is a
    subsequence of its input. An entry passes the test, and is dropped,
    exactly when it refers to the hovered view and the point is between
    the start of its symbol and that start plus the length of the symbol,
    both ends included. It refers to the hovered view when the view has a
    file name and the path of the entry is that name, or when the view has
    none, the path starts with [<untitled ] and the window's open file of
    that path is a true view with the id of the hovered view. *)
Theorem filter_current_symbol_subsequence (window : Window) (view : View)
    (point : Z) (symbol : string) (locations : list Location) :
  filter_current_symbol window view point symbol locations
  = filter (fun l => negb (on_hovered_symbol window view point symbol l)) locations
  /\ subsequence (filter_current_symbol window view point symbol locations) locations
  /\ (forall l,
       In l (filter_current_symbol window view point symbol locations)
       <-> In l locations /\ on_hovered_symbol window view point symbol l = false)
  /\ (forall l,
       on_hovered_symbol window view point symbol l = true
       <-> (file_name view = Some (fname l)
            \/ (file_name view = None
                /\ (exists rest, fname l = "<untitled " +++ rest)
                /\ exists path_view,
                     find_open_file window (fname l) = Some path_view
                     /\ view_id path_view <> 0
                     /\ view_id path_view = view_id view))
           /\ text_point view (row l - 1) (col l) <= point
              <= text_point view (row l - 1) (col l) + len symbol).
Proof.
  assert (filter_current_symbol window view point symbol locations
          = filter (fun l => negb (on_hovered_symbol window view point symbol l))
              locations) as E
      by (unfold filter_current_symbol; now rewrite filter_loop_spec).
  split; [exact E|]. rewrite E. split; [apply subsequence_filter|]. split.
  - intros l. rewrite filter_In, negb_true_iff. reflexivity.
  - intros l. unfold on_hovered_symbol.
    rewrite !andb_true_iff, !Z.leb_le, match_view_spec. reflexivity.
Qed.

(** Hovering the [foo] that starts [main.py]: its own entry is dropped,
    the entry of another file and a later entry of [main.py] are kept. And
    in an unsaved buffer, its own entry is dropped too. *)
Lemma filter_current_symbol_subsequence_witness :
  (filter_current_symbol sample_window sample_view 2 "foo"
     [loc_hovered; loc_a; loc_later]
   = filter (fun l => negb (on_hovered_symbol sample_window sample_view 2 "foo" l))
       [loc_hovered; loc_a; loc_later]
   /\ filter_current_symbol sample_window sample_view 2 "foo"
        [loc_hovered; loc_a; loc_later]
      = [loc_a; loc_later])
  /\ (filter_current_symbol untitled_window untitled_view 1 "foo"
        [loc_untitled; loc_a]
      = filter
          (fun l => negb (on_hovered_symbol untitled_window untitled_view 1 "foo" l))
          [loc_untitled; loc_a]
      /\ filter_current_symbol untitled_window untitled_view 1 "foo"
           [loc_untitled; loc_a]
         = [loc_a]).
Proof.
  split; (split; [|reflexivity]).
  - apply (filter_current_symbol_subsequence sample_window sample_view 2 "foo"
             [loc_hovered; loc_a; loc_later]).
  - apply (filter_current_symbol_subsequence untitled_window untitled_view 1 "foo"
             [loc_untitled; loc_a]).
Defined.

(** ** The comment-block extractor *)

Lemma scan_unfold fuel view l i htmlTab :
  scan (S fuel) view l i htmlTab
  = let '(cont, i', htmlTab') := scan_step (line_above view l i) i htmlTab in
    if cont then scan fuel view l i' htmlTab' else Done htmlTab'.
Proof. reflexivity. Qed.

(** The claim of C3 as written fails: a line of three [#] is a comment
    line to the extractor, and what follows its first [#] is extracted. *)
Lemma short_hash_run_is_extracted :
  line_above short_rule_view short_rule_loc 1 = replicate 3 "#"
  /\ scan_step (replicate 3 "#") 1 [] = (true, 2, ["##"])
  /\ scan_step (replicate 3 "#") 1 [] <> (true, 2, [])
  /\ scan 10 short_rule_view short_rule_loc 1 [] = Done ["##"]
  /\ extractInfo 10 short_rule_window short_rule_view [short_rule_loc]
     = Done "<p>##</p>".
Proof.
  repeat split; try reflexivity. vm_compute. discriminate.
Qed.

(** C3, amended. A line made of six or more [#] and nothing else is
    skipped: the loop goes on to the line above with [htmlTab] as it
    was. *)
Theorem scan_skips_hash_rule (fuel : nat) (view : View) (l : Location)
    (i : Z) (htmlTab : list string) (n : nat) :
  (6 <= n)%nat ->
  line_above view l i = replicate n "#" ->
  scan_step (line_above view l i) i htmlTab = (true, i + 1, htmlTab)
  /\ scan (S fuel) view l i htmlTab = scan fuel view l (i + 1) htmlTab.
Proof.
  intros Hn Hline.
  assert (scan_step (line_above view l i) i htmlTab = (true, i + 1, htmlTab)) as E.
  { rewrite Hline. unfold scan_step.
    rewrite replicate_hash_no_terminator, replicate_hash_find by lia.
    simpl negb. cbv iota. now rewrite replicate_hash_divider. }
  split; [exact E|]. now rewrite scan_unfold, E.
Qed.

Lemma scan_skips_hash_rule_witness :
  scan_step (line_above ruled_view ruled_loc 2) 2 [" text"] = (true, 2 + 1, [" text"])
  /\ scan 6 ruled_view ruled_loc 2 [" text"] = scan 5 ruled_view ruled_loc (2 + 1) [" text"].
Proof.
  apply (scan_skips_hash_rule 5 ruled_view ruled_loc 2 [" text"] 8).
  - lia.
  - reflexivity.
Defined.

(** C6. A line that is not empty, holds no [#] and does not hold
    [FUNCTION] ends the loop at once, and [htmlTab] is returned as it was
    before the line was read. *)
Theorem scan_stops_on_code_line (fuel : nat) (view : View) (l : Location)
    (i : Z) (htmlTab : list string) :
  line_above view l i <> "" ->
  contains "#" (line_above view l i) = false ->
  contains "FUNCTION" (line_above view l i) = false ->
  scan_step (line_above view l i) i htmlTab = (false, i, htmlTab)
  /\ scan (S fuel) view l i htmlTab = Done htmlTab.
Proof.
  intros Hne Hhash Hfun.
  assert (scan_step (line_above view l i) i htmlTab = (false, i, htmlTab)) as E.
  { unfold scan_step.
    assert (contains "END FUNCTION" (line_above view l i) = false) as ->.
    { destruct (contains "END FUNCTION" (line_above view l i)) eqn:T; [|reflexivity].
      apply (contains_suffix_of_pattern "END " "FUNCTION") in T. congruence. }
    apply find_absent in Hhash. rewrite Hhash. simpl negb. cbv iota.
    destruct (len (line_above view l i) =? 0) eqn:L.
    - apply len_zero in L. contradiction.
    - now rewrite Hfun. }
  split; [exact E|]. now rewrite scan_unfold, E.
Qed.

Lemma scan_stops_on_code_line_witness :
  scan_step (line_above ruled_view ruled_loc 3) 3 [" text"] = (false, 3, [" text"])
  /\ scan 4 ruled_view ruled_loc 3 [" text"] = Done [" text"].
Proof.
  apply (scan_stops_on_code_line 3 ruled_view ruled_loc 3 [" text"]).
  - vm_compute. discriminate.
  - reflexivity.
  - reflexivity.
Defined.

(** ** The formatter *)

Lemma extend_last_snoc (lst : list string) (x temp : string) :
  extend_last (lst ++ [x]) temp = Done (lst ++ [x +++ temp]).
Proof.
  induction lst as [|y lst IH]; [reflexivity|].
  change (extend_last ((y :: lst) ++ [x]) temp)
    with (match lst ++ [x] with
          | [] => Done [y +++ temp]
          | _ :: _ =>
              match extend_last (lst ++ [x]) temp with
              | Done rest' => Done (y :: rest')
              | Raise e => Raise e
              | OutOfFuel => OutOfFuel
              end
          end).
  rewrite IH. destruct lst; reflexivity.
Qed.

Lemma extend_last_filled (lst : list string) (temp : string) :
  lst <> [] -> exists lst', extend_last lst temp = Done lst' /\ lst' <> [].
Proof.
  intros H. destruct (exists_last H) as (init & x & ->).
  rewrite extend_last_snoc. eexists. split; [reflexivity|].
  now destruct init.
Qed.

Lemma snoc_not_nil {A} (l : list A) (x : A) : l ++ [x] <> [].
Proof. now destruct l. Qed.

(** Closes a case of the classification step: the new buckets are given
    by the branch, and the tagged bucket is filled by an append, by the
    hypotheses, or because [last] names another tag. *)
Ltac still_filled :=
  eexists; split; [reflexivity|];
  split; simpl; intros;
  first [apply snoc_not_nil | discriminate | congruence | auto].

(** One line never raises when the tagged bucket is filled, and leaves it
    filled. *)
Lemma classify_step_total (b : Buckets) (ligne : string) :
  tagged_bucket_filled b ->
  exists b', classify_step b ligne = Done b' /\ tagged_bucket_filled b'.
Proof.
  intros [Hp Hr]. unfold classify_step.
  destruct (contains "@param" (lower ligne)); [still_filled|].
  destruct (contains "@return" (lower ligne)); [still_filled|].
  destruct (contains "@desc" (lower ligne)); [still_filled|].
  destruct (contains "@" ligne); [still_filled|].
  destruct (String.eqb_spec (last b) "@param") as [E|E].
  { destruct (extend_last_filled (inputParam b)
                ("<p style='margin-left : 10px;'>" +++ ligne +++ "</p>") (Hp E))
      as (lst' & -> & Hne).
    still_filled. }
  destruct (String.eqb_spec (last b) "@return") as [E'|E'].
  { destruct (extend_last_filled (outputParam b)
                ("<p style='margin-left : 10px;'>" +++ ligne +++ "</p>") (Hr E'))
      as (lst' & -> & Hne).
    still_filled. }
  destruct (String.eqb (last b) "@desc"); still_filled.
Qed.

Lemma classify_total (textTab : list string) : forall b,
  tagged_bucket_filled b ->
  exists b', classify b textTab = Done b' /\ tagged_bucket_filled b'.
Proof.
  induction textTab as [|ligne rest IH]; intros b Hb.
  - exists b. now split.
  - destruct (classify_step_total b ligne Hb) as (b1 & E & Hb1).
    simpl. rewrite E. now apply IH.
Qed.

Lemma initial_buckets_filled : tagged_bucket_filled initial_buckets.
Proof. split; simpl; intros; discriminate. Qed.

(** Without a [@return] line the output bucket stays empty and [last]
    never names the return tag. *)
Lemma classify_step_no_return (b b' : Buckets) (ligne : string) :
  contains "@return" (lower ligne) = false ->
  outputParam b = [] /\ last b <> "@return" ->
  classify_step b ligne = Done b' ->
  outputParam b' = [] /\ last b' <> "@return".
Proof.
  intros Hret [Ho Hl]. unfold classify_step. rewrite Hret.
  destruct (contains "@param" (lower ligne)).
  { intros E. inversion E; subst; simpl. split; [exact Ho | discriminate]. }
  destruct (contains "@desc" (lower ligne)).
  { intros E. inversion E; subst; simpl. split; [exact Ho | discriminate]. }
  destruct (contains "@" ligne).
  { intros E. inversion E; subst; simpl. split; [exact Ho | discriminate]. }
  destruct (String.eqb (last b) "@param").
  { destruct (extend_last (inputParam b) _); intros E; inversion E; subst; simpl.
    now split. }
  destruct (String.eqb_spec (last b) "@return") as [E'|E']; [contradiction|].
  destruct (String.eqb (last b) "@desc").
  { intros E. inversion E; subst; simpl. now split. }
  intros E. inversion E; subst; simpl. split; [exact Ho | discriminate].
Qed.

Lemma classify_no_return (textTab : list string) : forall b b',
  (forall ligne, In ligne textTab -> contains "@return" (lower ligne) = false) ->
  outputParam b = [] /\ last b <> "@return" ->
  classify b textTab = Done b' ->
  outputParam b' = [] /\ last b' <> "@return".
Proof.
  induction textTab as [|ligne rest IH]; intros b b' Hall Hb.
  - simpl. intros E. inversion E. now subst.
  - simpl. destruct (classify_step b ligne) as [b1| |] eqn:E1; try discriminate.
    apply IH.
    + intros x Hx. apply Hall. now right.
    + apply (classify_step_no_return b b1 ligne); auto. apply Hall. now left.
Qed.

Lemma htmlText_acc (liste : list string) : forall html,
  fold_left (fun html ligne => html +++ "<p>" +++ ligne +++ "</p>") liste html
  = html +++ htmlText liste.
Proof.
  unfold htmlText.
  induction liste as [|x liste IH]; intros html.
  - simpl. now rewrite append_nil_r.
  - cbn [fold_left]. rewrite IH. symmetry. rewrite IH.
    change ("" +++ "<p>" +++ x +++ "</p>") with ("<p>" +++ x +++ "</p>").
    now rewrite !append_assoc.
Qed.

Lemma htmlText_cons (x : string) (liste : list string) :
  htmlText (x :: liste) = "<p>" +++ x +++ "</p>" +++ htmlText liste.
Proof.
  unfold htmlText at 1. simpl fold_left. rewrite htmlText_acc.
  simpl. now rewrite !append_assoc.
Qed.

Lemma len_list_nonzero {A} (l : list A) : negb (len_list l =? 0) = true <-> l <> [].
Proof.
  rewrite negb_true_iff. destruct l; simpl; split; intros H;
    try reflexivity; try discriminate; congruence.
Qed.

Lemma render_description_empty (l : list string) :
  render_description l = "" <-> l = [].
Proof.
  unfold render_description, len_list. destruct l; cbn; split; intros H.
  all: try reflexivity; discriminate H.
Qed.

Lemma render_input_empty (l : list string) : render_input l = "" <-> l = [].
Proof.
  unfold render_input, heading_input_one, heading_input_many.
  destruct l as [|x l]; split; intros H; try reflexivity; try discriminate H.
  change (negb (len_list (x :: l) =? 0)) with true in H. cbv iota in H.
  destruct (len_list (x :: l) =? 1); discriminate H.
Qed.

Lemma render_output_empty (l : list string) : render_output l = "" <-> l = [].
Proof.
  unfold render_output, heading_output_one, heading_output_many.
  destruct l as [|x l]; split; intros H; try reflexivity; try discriminate H.
  change (negb (len_list (x :: l) =? 0)) with true in H. cbv iota in H.
  destruct (len_list (x :: l) =? 1); discriminate H.
Qed.

Lemma render_other_empty (l : list string) : render_other l = "" <-> l = [].
Proof.
  unfold render_other, len_list. destruct l as [|x l]; split; intros H;
    try reflexivity; try discriminate H.
  cbn [List.length Z.of_nat Z.eqb negb] in H. rewrite htmlText_cons in H.
  discriminate H.
Qed.

Lemma render_sections (b : Buckets) :
  render b
  = render_description (description b) +++ render_input (inputParam b)
    +++ render_output (outputParam b) +++ render_other (other b).
Proof. unfold render. simpl. now rewrite !append_assoc. Qed.

(** C8. The classification of any lines ends without an exception, and the
    markup is the description section, the input-parameter section, the
    output-parameter section and the other section, in that order, each
    one empty exactly when its bucket is empty. When no line holds
    [@return], in any case, the output bucket is empty, so the markup is
    the three other sections alone: no output-parameter heading or list is
    emitted. *)
Theorem miseEnForme_sections (textTab : list string) :
  exists b,
    classify initial_buckets textTab = Done b
    /\ miseEnForme textTab
       = Done (render_description (description b) +++ render_input (inputParam b)
               +++ render_output (outputParam b) +++ render_other (other b))
    /\ (render_description (description b) = "" <-> description b = [])
    /\ (render_input (inputParam b) = "" <-> inputParam b = [])
    /\ (render_output (outputParam b) = "" <-> outputParam b = [])
    /\ (render_other (other b) = "" <-> other b = [])
    /\ ((forall ligne, In ligne textTab -> contains "@return" (lower ligne) = false) ->
        outputParam b = []
        /\ miseEnForme textTab
           = Done (render_description (description b)
                   +++ render_input (inputParam b) +++ render_other (other b))).
Proof.
  destruct (classify_total textTab initial_buckets initial_buckets_filled)
    as (b & Hb & _).
  assert (miseEnForme textTab
          = Done (render_description (description b) +++ render_input (inputParam b)
                  +++ render_output (outputParam b) +++ render_other (other b))) as E
      by (unfold miseEnForme; now rewrite Hb, render_sections).
  exists b. split; [exact Hb|]. split; [exact E|].
  split; [apply render_description_empty|].
  split; [apply render_input_empty|].
  split; [apply render_output_empty|].
  split; [apply render_other_empty|].
  intros Hall.
  destruct (classify_no_return textTab initial_buckets b Hall) as [Ho _];
    [split; [reflexivity | discriminate] | exact Hb |].
  split; [exact Ho|]. rewrite E, Ho. reflexivity.
Qed.

(** A description, one parameter and an unknown tag: three sections, no
    output-parameter section. *)
Lemma miseEnForme_sections_witness :
  exists b,
    classify initial_buckets ["@desc sums"; "@Param a"; "@see b"] = Done b
    /\ outputParam b = []
    /\ miseEnForme ["@desc sums"; "@Param a"; "@see b"]
       = Done (render_description (description b)
               +++ render_input (inputParam b) +++ render_other (other b))
    /\ miseEnForme ["@desc sums"; "@Param a"; "@see b"]
       = Done ("<p>Description</p><ul><p> sums</p></ul>"
               +++ heading_input_one +++ "<ul><li> a</li></ul>"
               +++ "<p>@see b</p>").
Proof.
  destruct (miseEnForme_sections ["@desc sums"; "@Param a"; "@see b"])
    as (b & Hb & _ & _ & _ & _ & _ & Hno).
  exists b. split; [exact Hb|].
  destruct Hno as [Ho E].
  - intros ligne [<-|[<-|[<-|[]]]]; reflexivity.
  - split; [exact Ho|]. split; [exact E | reflexivity].
Defined.

Lemma classify_two (b b1 b2 : Buckets) (l1 l2 : string) :
  classify_step b l1 = Done b1 -> classify_step b1 l2 = Done b2 ->
  classify b [l1; l2] = Done b2.
Proof. intros E1 E2. simpl. now rewrite E1, E2. Qed.

(** C7. A line without [@] that follows a line holding [@param] is joined,
    as an indented fragment, to the entry that line started: after the two
    lines the input bucket has one more entry, not two, and the two lines
    alone render as a list of one item. The same holds of the output
    bucket when the first line holds [@return] and not [@param]. *)
Theorem continuation_joins_entry (b : Buckets) (l1 l2 : string) :
  contains "@" l2 = false ->
  (contains "@param" (lower l1) = true ->
   classify b [l1; l2]
   = Done (mkBuckets
             (inputParam b
              ++ [slice_from l1 (find "@param" (lower l1) + 6) +++ continuation l2])
             (outputParam b) (description b) (other b) "@param")
   /\ miseEnForme [l1; l2]
      = Done (heading_input_one +++ "<ul>" +++ "<li>"
              +++ (slice_from l1 (find "@param" (lower l1) + 6) +++ continuation l2)
              +++ "</li>" +++ "</ul>"))
  /\ (contains "@param" (lower l1) = false ->
      contains "@return" (lower l1) = true ->
      classify b [l1; l2]
      = Done (mkBuckets (inputParam b)
                (outputParam b
                 ++ [slice_from l1 (find "@return" (lower l1) + 7) +++ continuation l2])
                (description b) (other b) "@return")
      /\ miseEnForme [l1; l2]
         = Done (heading_output_one +++ "<ul>" +++ "<li>"
                 +++ (slice_from l1 (find "@return" (lower l1) + 7) +++ continuation l2)
                 +++ "</li>" +++ "</ul>")).
Proof.
  intros Hat.
  pose proof (no_at_no_tag "param" l2 Hat) as Hp.
  pose proof (no_at_no_tag "return" l2 Hat) as Hr.
  pose proof (no_at_no_tag "desc" l2 Hat) as Hd.
  simpl in Hp, Hr, Hd.
  split.
  - intros H1.
    assert (forall b0,
      classify b0 [l1; l2]
      = Done (mkBuckets
                (inputParam b0
                 ++ [slice_from l1 (find "@param" (lower l1) + 6) +++ continuation l2])
                (outputParam b0) (description b0) (other b0) "@param")) as E.
    { intros b0. eapply classify_two.
      - unfold classify_step. rewrite H1. reflexivity.
      - unfold classify_step. rewrite Hp, Hr, Hd, Hat.
        cbn [last inputParam outputParam description other].
        rewrite String.eqb_refl.
        fold (continuation l2). now rewrite extend_last_snoc. }
    split; [apply E|].
    unfold miseEnForme. rewrite E. simpl.
    unfold render, render_description, render_input, render_output, render_other,
      htmlList. simpl.
    now rewrite !append_nil_r, !append_assoc.
  - intros H0 H1.
    assert (forall b0,
      classify b0 [l1; l2]
      = Done (mkBuckets (inputParam b0)
                (outputParam b0
                 ++ [slice_from l1 (find "@return" (lower l1) + 7) +++ continuation l2])
                (description b0) (other b0) "@return")) as E.
    { intros b0. eapply classify_two.
      - unfold classify_step. rewrite H0, H1. reflexivity.
      - unfold classify_step. rewrite Hp, Hr, Hd, Hat.
        cbn [last inputParam outputParam description other].
        change (String.eqb "@return" "@param") with false. cbv iota.
        rewrite String.eqb_refl.
        fold (continuation l2). now rewrite extend_last_snoc. }
    split; [apply E|].
    unfold miseEnForme. rewrite E. simpl.
    unfold render, render_description, render_input, render_output, render_other,
      htmlList. simpl.
    now rewrite !append_nil_r, !append_assoc.
Qed.

(** The two lines of the spec's example: one list item holding both. *)
Lemma continuation_joins_entry_witness :
  classify initial_buckets ["@param x: the input"; "  more detail"]
  = Done (mkBuckets
            [" x: the input<p style='margin-left : 10px;'>  more detail</p>"]
            [] [] [] "@param")
  /\ miseEnForme ["@param x: the input"; "  more detail"]
     = Done (heading_input_one
             +++ "<ul><li> x: the input<p style='margin-left : 10px;'>  more detail</p></li></ul>").
Proof.
  apply (continuation_joins_entry initial_buckets
           "@param x: the input" "  more detail"); reflexivity.
Defined.

(** ** The hover popup *)

Lemma rebind_view_snoc (window : Window) (l : Location) (init : list Location) :
  forall view r,
    rebind_view window view (init ++ [l]) = Done r ->
    r = find_open_file window (fname l).
Proof.
  induction init as [|x init IH]; intros view r; simpl.
  - destruct view; intros E; inversion E. reflexivity.
  - destruct view; [apply IH | discriminate].
Qed.

Lemma loop_variable_snoc (l : Location) (init : list Location) :
  loop_variable (init ++ [l]) = Some l.
Proof.
  induction init as [|x init IH]; [reflexivity|].
  simpl. rewrite IH. now destruct (init ++ [l]) eqn:E; [destruct init|].
Qed.

(** When [extractInfo] returns, what it returns is the formatted scan above
    the last location, in the open file of that location. *)
Lemma extractInfo_last (fuel : nat) (window : Window) (view : View)
    (init : list Location) (l : Location) (comment : string) :
  extractInfo fuel window view (init ++ [l]) = Done comment ->
  exists view_l htmlTab,
    find_open_file window (fname l) = Some view_l
    /\ scan fuel view_l l 1 [] = Done htmlTab
    /\ miseEnForme (rev htmlTab) = Done comment.
Proof.
  unfold extractInfo.
  destruct (rebind_view window (Some view) (init ++ [l])) as [[view_l|]| |] eqn:R;
    try discriminate.
  apply rebind_view_snoc in R. rewrite loop_variable_snoc.
  destruct (scan fuel view_l l 1 []) as [htmlTab| |] eqn:S; try discriminate.
  destruct (miseEnForme (rev htmlTab)) as [doc| |] eqn:M; try discriminate.
  intros E. inversion E. subst comment.
  exists view_l, htmlTab. auto.
Qed.

(** C2. The popup is to carry the documentation found above the first
    location. The code does not: [extractInfo] reads its loop variable and
    the view it rebound once its loop over the locations is over, so with
    the two locations [a.py] and [b.py], in that order, the popup carries
    the documentation of [b.py] and not that of [a.py]. *)
Lemma hover_documentation_is_not_of_first :
  filter_current_symbol hover_window hover_view 0
    (fst (fst (symbol_at_point sample_sublime hover_window hover_view 0)))
    (snd (fst (symbol_at_point sample_sublime hover_window hover_view 0)))
  = [doc_loc_a; doc_loc_b]
  /\ extractInfo 10 hover_window hover_view [doc_loc_a]
     = Done "<p>Description</p><ul><p> doc of a</p></ul>"
  /\ on_hover 10 sample_sublime hover_window hover_view 0 1
     <> Done (Some (popup_body "s" (join "<br>" (map link [doc_loc_a; doc_loc_b]))
                      "<p>Description</p><ul><p> doc of a</p></ul>"))
  /\ on_hover 10 sample_sublime hover_window hover_view 0 1
     = Done (Some (popup_body "s" (join "<br>" (map link [doc_loc_a; doc_loc_b]))
                     "<p>Description</p><ul><p> doc of b</p></ul>")).
Proof.
  split; [reflexivity|]. split; [reflexivity|]. split.
  - vm_compute. intros E. inversion E.
  - vm_compute. reflexivity.
Qed.

(** What the code does in general: when [on_hover] shows a popup, the
    documentation block of the popup body is the formatted scan above the
    last location of the filtered list, read in the open file of that
    location. *)
Theorem hover_documentation_of_last (fuel : nat) (sublime : SublimeModule)
    (window : Window) (view : View) (point hover_zone : Z) (body : string) :
  on_hover fuel sublime window view point hover_zone = Done (Some body) ->
  exists init l view_l htmlTab doc,
    filter_current_symbol window view point
      (fst (fst (symbol_at_point sublime window view point)))
      (snd (fst (symbol_at_point sublime window view point)))
    = init ++ [l]
    /\ find_open_file window (fname l) = Some view_l
    /\ scan fuel view_l l 1 [] = Done htmlTab
    /\ miseEnForme (rev htmlTab) = Done doc
    /\ body
       = popup_body (if 1 <? len_list (init ++ [l]) then "s" else "")
           (join "<br>" (map link (init ++ [l]))) doc.
Proof.
  unfold on_hover.
  destruct (negb (show_definitions view)); [discriminate|].
  destruct (negb (hover_zone =? HOVER_TEXT sublime)); [discriminate|].
  destruct (hover_rejected view point); [discriminate|].
  destruct (symbol_at_point sublime window view point) as [[symbol found] trace].
  simpl fst. simpl snd. cbv beta iota zeta.
  destruct (filter_current_symbol window view point symbol found)
    as [|x rest] eqn:F; [discriminate|].
  assert (x :: rest <> []) as Hne by discriminate.
  destruct (exists_last Hne) as (init & l & Hlast). rewrite Hlast.
  destruct (extractInfo fuel window view (init ++ [l])) as [comment| |] eqn:X;
    try discriminate.
  intros E. inversion E.
  apply extractInfo_last in X as (view_l & htmlTab & Hv & Hs & Hm).
  exists init, l, view_l, htmlTab, comment. auto.
Qed.

Lemma hover_documentation_of_last_witness :
  exists init l view_l htmlTab doc,
    filter_current_symbol hover_window hover_view 0
      (fst (fst (symbol_at_point sample_sublime hover_window hover_view 0)))
      (snd (fst (symbol_at_point sample_sublime hover_window hover_view 0)))
    = init ++ [l]
    /\ find_open_file hover_window (fname l) = Some view_l
    /\ scan 10 view_l l 1 [] = Done htmlTab
    /\ miseEnForme (rev htmlTab) = Done doc
    /\ popup_body "s" (join "<br>" (map link [doc_loc_a; doc_loc_b]))
         "<p>Description</p><ul><p> doc of b</p></ul>"
       = popup_body (if 1 <? len_list (init ++ [l]) then "s" else "")
           (join "<br>" (map link (init ++ [l]))) doc.
Proof.
  apply (hover_documentation_of_last 10 sample_sublime hover_window hover_view 0 1).
  vm_compute. reflexivity.
Defined.

(** * Further properties *)

(** ** The location merge, without assumption on the paths *)

Lemma filter_id_in {A} (p : A -> bool) (l : list A) :
  (forall x, In x l -> p x = true) -> filter p l = l.
Proof.
  induction l as [|x l IH]; intros H; simpl; [reflexivity|].
  rewrite (H x (or_introl eq_refl)), IH; [reflexivity|].
  intros y Hy. apply H. now right.
Qed.

Lemma filter_nil_in {A} (p : A -> bool) (l : list A) :
  (forall x, In x l -> p x = false) -> filter p l = [].
Proof.
  induction l as [|x l IH]; intros H; simpl; [reflexivity|].
  rewrite (H x (or_introl eq_refl)). apply IH.
  intros y Hy. apply H. now right.
Qed.

(** A list filtered by [p] is, up to order, its part where [q] holds
    followed by its part where [q] fails. *)
Lemma filter_split_permutation {A} (p q : A -> bool) (l : list A) :
  Permutation
    (filter (fun x => p x && q x) l ++ filter (fun x => p x && negb (q x)) l)
    (filter p l).
Proof.
  induction l as [|x l IH]; simpl; [constructor|].
  destruct (p x), (q x); simpl; auto.
  apply Permutation_sym, Permutation_cons_app, Permutation_sym, IH.
Qed.

Lemma file_in_location_list_self (O : list Location) (ofl : Location) :
  In ofl O -> file_in_location_list (fname ofl) O = true.
Proof. intros H. apply file_in_location_list_true. eauto. Qed.

(** One step of the index loop keeps, up to order, the open-file entries
    already emitted together with those not yet ignored. *)
Lemma index_step_permutation (O : list Location) st l :
  Permutation
    (filter (fun x => file_in_location_list (fname x) O) (fst (index_step O st l))
     ++ filter (fun ofl => negb (file_in_location_list (fname ofl)
                                   (snd (index_step O st l)))) O)
    (filter (fun x => file_in_location_list (fname x) O) (fst st)
     ++ filter (fun ofl => negb (file_in_location_list (fname ofl) (snd st))) O).
Proof.
  rewrite index_step_spec.
  destruct (file_in_location_list (fname l) O) eqn:HO.
  - destruct (file_in_location_list (fname l) (snd st)) eqn:Hign; [reflexivity|].
    simpl. rewrite filter_app, <- app_assoc. apply Permutation_app_head.
    rewrite (filter_id_in _ (same_path O l)).
    2:{ intros x Hx. apply filter_In in Hx as [Hx _].
        now apply file_in_location_list_self. }
    assert (filter (fun ofl =>
                      negb (file_in_location_list (fname ofl)
                              (snd st ++ same_path O l))) O
            = filter (fun ofl =>
                        negb (file_in_location_list (fname ofl) (snd st))
                        && negb (String.eqb (fname l) (fname ofl))) O) as ->.
    { apply filter_ext_in. intros o Ho.
      rewrite file_in_location_list_app, file_in_same_path.
      rewrite (file_in_location_list_self O o Ho), andb_true_r.
      now rewrite negb_orb. }
    assert (same_path O l
            = filter (fun ofl =>
                        negb (file_in_location_list (fname ofl) (snd st))
                        && String.eqb (fname l) (fname ofl)) O) as ->.
    { unfold same_path. apply filter_ext. intros o.
      destruct (String.eqb_spec (fname l) (fname o)) as [E|E].
      - rewrite <- E, Hign. reflexivity.
      - now rewrite andb_false_r. }
    apply (filter_split_permutation
             (fun ofl => negb (file_in_location_list (fname ofl) (snd st)))
             (fun ofl => String.eqb (fname l) (fname ofl))).
  - simpl. rewrite filter_app. simpl. rewrite HO, app_nil_r. reflexivity.
Qed.

Lemma index_loop_permutation (O I : list Location) : forall st,
  Permutation
    (filter (fun x => file_in_location_list (fname x) O) (fst (index_loop O I st))
     ++ filter (fun ofl => negb (file_in_location_list (fname ofl)
                                   (snd (index_loop O I st)))) O)
    (filter (fun x => file_in_location_list (fname x) O) (fst st)
     ++ filter (fun ofl => negb (file_in_location_list (fname ofl) (snd st))) O).
Proof.
  induction I as [|l I IH]; intros st; [reflexivity|].
  rewrite index_loop_cons.
  eapply Permutation_trans; [apply IH | apply index_step_permutation].
Qed.

(** The part of the merge on open-file paths. *)
Lemma merge_open_part (I O : list Location) :
  Permutation
    (filter (fun x => file_in_location_list (fname x) O) (merge I O)) O.
Proof.
  rewrite merge_unfold, filter_app.
  rewrite (filter_id_in _ (filter _ O)).
  2:{ intros x Hx. apply filter_In in Hx as [Hx _].
      now apply file_in_location_list_self. }
  eapply Permutation_trans; [apply index_loop_permutation|].
  simpl. now rewrite filter_true.
Qed.

(** X1. Whatever the two lists hold, the entries of the merge whose path
    is an open-file path are the open-file list rearranged: every
    open-file entry is in the merge, as many times as in the open-file
    list, and no index entry of such a path is. *)
Theorem merge_keeps_open_files (I O : list Location) :
  Permutation
    (filter (fun x => file_in_location_list (fname x) O) (merge I O)) O.
Proof. exact (merge_open_part I O). Qed.

Lemma index_loop_other_paths (O I : list Location) : forall st,
  filter (fun x => negb (file_in_location_list (fname x) O)) (fst (index_loop O I st))
  = filter (fun x => negb (file_in_location_list (fname x) O)) (fst st)
    ++ filter (fun x => negb (file_in_location_list (fname x) O)) I.
Proof.
  induction I as [|l I IH]; intros st.
  - simpl. now rewrite app_nil_r.
  - rewrite index_loop_cons, IH, index_step_spec. simpl.
    destruct (file_in_location_list (fname l) O) eqn:HO; simpl.
    + destruct (file_in_location_list (fname l) (snd st)); [reflexivity|].
      simpl. rewrite filter_app.
      rewrite (filter_nil_in _ (same_path O l)); [now rewrite app_nil_r|].
      intros x Hx. apply filter_In in Hx as [Hx _].
      now rewrite (file_in_location_list_self O x Hx).
    + rewrite filter_app. simpl. rewrite HO. simpl. now rewrite <- app_assoc.
Qed.

(** The part of the merge on the other paths. *)
Lemma merge_index_part (I O : list Location) :
  filter (fun x => negb (file_in_location_list (fname x) O)) (merge I O)
  = filter (fun x => negb (file_in_location_list (fname x) O)) I.
Proof.
  rewrite merge_unfold, filter_app, index_loop_other_paths. simpl.
  rewrite (filter_nil_in _ (filter _ O)); [now rewrite app_nil_r|].
  intros x Hx. apply filter_In in Hx as [Hx _].
  now rewrite (file_in_location_list_self O x Hx).
Qed.

(** X2. The entries of the merge whose path is no open-file path are the
    index entries of such paths, in index order and with their
    repetitions. *)
Theorem merge_keeps_index_only (I O : list Location) :
  filter (fun x => negb (file_in_location_list (fname x) O)) (merge I O)
  = filter (fun x => negb (file_in_location_list (fname x) O)) I.
Proof. exact (merge_index_part I O). Qed.

Lemma index_loop_no_open_files (I : list Location) : forall st,
  index_loop [] I st = (fst st ++ I, snd st).
Proof.
  induction I as [|l I IH]; intros [locations ofl_ignore].
  - simpl. now rewrite app_nil_r.
  - rewrite index_loop_cons, index_step_spec, IH. simpl.
    now rewrite <- app_assoc.
Qed.

(** X3. With nothing found in open files the merge is the index list, and
    with nothing found in the index it is the open-file list. *)
Theorem merge_with_empty (L : list Location) :
  merge L [] = L /\ merge [] L = L.
Proof.
  split.
  - rewrite merge_unfold, index_loop_no_open_files. simpl. apply app_nil_r.
  - rewrite merge_unfold. simpl. apply filter_true.
Qed.

(** Leaving entries out of a list of distinct paths keeps the paths
    distinct. *)
Lemma distinct_paths_filter (keep : Location -> bool) (ls : list Location) :
  NoDup (map fname ls) -> NoDup (map fname (filter keep ls)).
Proof.
  intros ND. induction ls as [|o ls IH]; [constructor|].
  simpl in ND. apply NoDup_cons_iff in ND as [Hfresh ND].
  simpl. destruct (keep o); [|now apply IH].
  simpl. apply NoDup_cons; [|now apply IH].
  rewrite in_map_iff. intros (y & Ey & Hy).
  apply filter_In in Hy as [Hy _].
  apply Hfresh. rewrite <- Ey. now apply in_map.
Qed.

(** X4. When the paths are pairwise distinct within each list, they are
    pairwise distinct in the merge. *)
Theorem merge_distinct_paths_kept (I O : list Location) :
  NoDup (map fname I) -> NoDup (map fname O) ->
  NoDup (map fname (merge I O)).
Proof.
  intros NDI NDO.
  rewrite merge_unfold, index_loop_distinct by (auto; intros; reflexivity).
  simpl. rewrite map_app, map_map.
  rewrite (map_ext (fun l => fname (substitute O l)) fname)
    by (intros l; apply substitute_fname).
  apply NoDup_app; [exact NDI | now apply distinct_paths_filter |].
  intros name HI HO.
  apply in_map_iff in HO as (o & <- & Ho).
  apply filter_In in Ho as [Ho Hign].
  rewrite index_loop_ignore in Hign. simpl in Hign.
  rewrite (file_in_location_list_self O o Ho), andb_true_r in Hign.
  apply negb_true_iff in Hign.
  apply in_map_iff in HI as (l & E & Hl).
  rewrite file_in_location_list_false in Hign. exact (Hign l Hl E).
Qed.

Lemma merge_distinct_paths_kept_witness :
  NoDup (map fname (merge [loc_a; loc_b] [loc_b_open; loc_c_open])).
Proof.
  apply (merge_distinct_paths_kept [loc_a; loc_b] [loc_b_open; loc_c_open]);
    repeat constructor; simpl; intuition discriminate.
Defined.

(** ** Hrefs and encoded positions *)

Lemma str_of_int_injective (a b : Z) : str_of_int a = str_of_int b -> a = b.
Proof.
  unfold str_of_int. intros H.
  assert (forall z, Z.to_int z <> Decimal.Pos Decimal.Nil
                    /\ Z.to_int z <> Decimal.Neg Decimal.Nil) as Hn.
  { intros [|p|p]; simpl; split; try discriminate;
      intros E; inversion E as [E'];
      exact (DecimalPos.Unsigned.to_uint_nonnil p E'). }
  assert (Some (Z.to_int a) = Some (Z.to_int b)) as E.
  { rewrite <- (NilZero.isi (Z.to_int a)) by apply Hn.
    rewrite <- (NilZero.isi (Z.to_int b)) by apply Hn.
    now rewrite H. }
  inversion E as [E'].
  rewrite <- (DecimalZ.of_to a), <- (DecimalZ.of_to b). now rewrite E'.
Qed.

Lemma string_of_uint_no_colon (d : Decimal.uint) :
  contains ":" (NilEmpty.string_of_uint d) = false.
Proof.
  induction d; simpl NilEmpty.string_of_uint; [reflexivity| ..];
    rewrite contains_char_cons; exact IHd.
Qed.

(** The decimal writing of an integer holds no colon. *)
Lemma str_of_int_no_colon (n : Z) : contains ":" (str_of_int n) = false.
Proof.
  unfold str_of_int.
  assert (forall d, contains ":" (NilZero.string_of_uint d) = false) as U.
  { intros d. destruct d; try apply string_of_uint_no_colon. reflexivity. }
  destruct (Z.to_int n) as [d|d]; simpl NilZero.string_of_int.
  - apply U.
  - rewrite contains_char_cons. apply U.
Qed.

(** Two texts that end with a colon and a colon-free tail are equal only
    if their tails are, and what precedes the colon too. *)
Lemma split_at_last_colon (x y c1 c2 : string) :
  contains ":" c1 = false -> contains ":" c2 = false ->
  x +++ ":" +++ c1 = y +++ ":" +++ c2 -> x = y /\ c1 = c2.
Proof.
  intros H1 H2. revert y.
  induction x as [|a x IH]; intros [|b y] E; simpl in E.
  - inversion E. auto.
  - inversion E as [[Ea Ec]]. exfalso.
    assert (contains ":" c1 = true) as T
        by (apply contains_iff; exists y, c2; exact Ec).
    congruence.
  - inversion E as [[Ea Ec]]. exfalso.
    assert (contains ":" c2 = true) as T
        by (apply contains_iff; exists x, c1; now symmetry).
    congruence.
  - inversion E as [[Ea Ec]]. destruct (IH y Ec) as [-> ->]. auto.
Qed.

(** X5. The href of a location names its file, row and column and nothing
    else: two locations have the same href exactly when they agree on the
    three. *)
Theorem location_href_injective (l1 l2 : Location) :
  location_href l1 = location_href l2
  <-> fname l1 = fname l2 /\ row l1 = row l2 /\ col l1 = col l2.
Proof.
  unfold location_href. split.
  - intros E.
    rewrite <- (append_assoc (fname l1) ":" _),
            <- (append_assoc (fname l2) ":" _) in E.
    rewrite <- (append_assoc (fname l1 +++ ":") (str_of_int (row l1)) _),
            <- (append_assoc (fname l2 +++ ":") (str_of_int (row l2)) _) in E.
    apply split_at_last_colon in E as [E Ec]; try apply str_of_int_no_colon.
    rewrite <- (append_nil_r (str_of_int (row l1))),
            <- (append_nil_r (str_of_int (row l2))) in E.
    rewrite !append_assoc in E.
    assert (fname l1 +++ ":" +++ str_of_int (row l1)
            = fname l2 +++ ":" +++ str_of_int (row l2)) as E'.
    { rewrite !append_nil_r in E. exact E. }
    apply split_at_last_colon in E' as [Ef Er]; try apply str_of_int_no_colon.
    auto using str_of_int_injective.
  - intros (-> & -> & ->). reflexivity.
Qed.

(** The text [open_location] gives to the editor is the href. *)
Lemma open_location_target (sublime : SublimeFlags) (l : Location) :
  open_location sublime l
  = OpenFile (location_href l) None
      (Z.lor (ENCODED_POSITION sublime) (FORCE_GROUP sublime)).
Proof.
  unfold open_location, location_href. now rewrite !append_assoc.
Qed.

(** ** The links of the popup *)

Lemma dict_get_set (d : list (string * Location)) (k k' : string) (v : Location) :
  dict_get (dict_set d k v) k'
  = if String.eqb k k' then Some v else dict_get d k'.
Proof.
  induction d as [|[k0 v0] d IH]; simpl.
  - reflexivity.
  - destruct (String.eqb_spec k0 k) as [->|N]; simpl.
    + destruct (String.eqb k k'); reflexivity.
    + rewrite IH. destruct (String.eqb_spec k0 k') as [->|N'];
        [|reflexivity].
      destruct (String.eqb_spec k k') as [E|_]; [congruence | reflexivity].
Qed.

(** What [location_map] holds at a key: a location of the list that has
    this href, or what the dict held before the loop. *)
Lemma location_map_get (locations : list Location) (href : string) : forall d,
  match dict_get (fold_left (fun d l => dict_set d (location_href l) l) locations d)
          href with
  | Some v =>
      (In v locations /\ location_href v = href) \/ dict_get d href = Some v
  | None =>
      dict_get d href = None
      /\ forall l, In l locations -> location_href l <> href
  end.
Proof.
  induction locations as [|x rest IH]; intros d; simpl.
  - destruct (dict_get d href) as [v|]; auto.
  - specialize (IH (dict_set d (location_href x) x)).
    rewrite dict_get_set in IH.
    destruct (dict_get (fold_left _ rest _) href) as [v|].
    + destruct IH as [[Hin E]|IH]; [left; auto|].
      destruct (String.eqb_spec (location_href x) href) as [E|_]; [|now right].
      inversion IH. subst v. left. auto.
    + destruct IH as [Hnone Hrest].
      destruct (String.eqb_spec (location_href x) href) as [E|N];
        [discriminate|].
      split; [exact Hnone|]. intros l [<-|Hl]; auto.
Qed.

(** X6. Following a link of the popup opens the position written in the
    link: for a location of the list, [on_navigate] on its href opens that
    very href, also when several locations of the list share it; and an
    href of no location of the list is a missing key. *)
Theorem on_navigate_opens_href (sublime : SublimeFlags)
    (locations : list Location) (href : string) :
  ((exists l, In l locations /\ location_href l = href) ->
   on_navigate sublime locations href
   = Some (OpenFile href None
             (Z.lor (ENCODED_POSITION sublime) (FORCE_GROUP sublime))))
  /\ ((forall l, In l locations -> location_href l <> href) ->
      on_navigate sublime locations href = None).
Proof.
  unfold on_navigate, location_map.
  pose proof (location_map_get locations href []) as H.
  destruct (dict_get (fold_left _ locations []) href) as [v|].
  - destruct H as [[Hin E]|H]; [|discriminate]. split.
    + intros _. now rewrite open_location_target, E.
    + intros Hno. exfalso. exact (Hno v Hin E).
  - destruct H as [_ H]. split.
    + intros (l & Hl & E). exfalso. exact (H l Hl E).
    + reflexivity.
Qed.

(** Two locations of one href: the link of either opens that href. *)
Lemma on_navigate_opens_href_witness :
  on_navigate (mkFlags 1 8 16 2)
    [loc_b; mkLocation "b" "other name" 2 0; loc_a] (location_href loc_b)
  = Some (OpenFile (location_href loc_b) None (Z.lor 1 8)).
Proof.
  apply (on_navigate_opens_href (mkFlags 1 8 16 2)
           [loc_b; mkLocation "b" "other name" 2 0; loc_a] (location_href loc_b)).
  exists loc_b. split; [now left | reflexivity].
Defined.

(** ** Navigation *)

(** X7. With a view, [navigate_to_symbol] raises nothing and makes exactly
    one request: the message that the symbol was not found when there is
    no location, the opening of the location when there is one, and
    otherwise one quick panel whose items are the locations, in order, one
    item each. Without a view it makes no request and raises as soon as
    there is a location. *)
Theorem navigate_to_symbol_request (sublime : SublimeFlags)
    (view : option View) (symbol : string) (locations : list Location) :
  (locations = [] ->
   navigate_to_symbol sublime view symbol locations
   = ([StatusMessage ("Unable to find " +++ symbol)], None))
  /\ (forall v l, view = Some v -> locations = [l] ->
      navigate_to_symbol sublime view symbol locations
      = ([OpenFile (location_href l) None
            (Z.lor (ENCODED_POSITION sublime) (FORCE_GROUP sublime))], None))
  /\ (forall v, view = Some v -> (2 <= List.length locations)%nat ->
      exists items,
        navigate_to_symbol sublime view symbol locations
        = ([ShowQuickPanel items (KEEP_OPEN_ON_FOCUS_LOST sublime)], None)
        /\ List.length items = List.length locations
        /\ forall n l, nth_error locations n = Some l ->
                       nth_error items n = Some (format_location l))
  /\ (view = None -> locations <> [] ->
      navigate_to_symbol sublime view symbol locations
      = ([], Some AttributeError)).
Proof.
  unfold navigate_to_symbol, len_list. repeat split.
  - intros ->. reflexivity.
  - intros v l -> ->. simpl. now rewrite open_location_target.
  - intros v -> Hlen.
    destruct locations as [|l1 [|l2 rest]]; simpl in Hlen; try lia.
    exists (map format_location (l1 :: l2 :: rest)).
    split; [|split].
    + change (Z.of_nat (List.length (l1 :: l2 :: rest)) =? 0) with false.
      assert ((Z.of_nat (List.length (l1 :: l2 :: rest)) =? 1) = false) as ->
          by (apply Z.eqb_neq; cbn [List.length]; lia).
      reflexivity.
    + apply length_map.
    + intros n l H. rewrite nth_error_map, H. reflexivity.
  - intros -> Hne. destruct locations as [|l1 [|l2 rest]]; [contradiction| |].
    + reflexivity.
    + change (Z.of_nat (List.length (l1 :: l2 :: rest)) =? 0) with false.
      assert ((Z.of_nat (List.length (l1 :: l2 :: rest)) =? 1) = false) as ->
          by (apply Z.eqb_neq; cbn [List.length]; lia).
      reflexivity.
Qed.

Lemma navigate_to_symbol_request_witness :
  exists items,
    navigate_to_symbol (mkFlags 1 8 16 2) (Some sample_view) "foo"
      [loc_a; loc_b_open; loc_c_open]
    = ([ShowQuickPanel items 2], None)
    /\ List.length items = List.length [loc_a; loc_b_open; loc_c_open]
    /\ forall n l, nth_error [loc_a; loc_b_open; loc_c_open] n = Some l ->
                   nth_error items n = Some (format_location l).
Proof.
  apply (navigate_to_symbol_request (mkFlags 1 8 16 2) (Some sample_view) "foo"
           [loc_a; loc_b_open; loc_c_open]) with (v := sample_view).
  - reflexivity.
  - simpl. lia.
Defined.

(** X8. The item of the quick panel at a valid index, its preview and its
    selection are about one location: [highlight_entry] and
    [select_entry] at that index both open the href of the location whose
    name the item shows, the first as a transient preview in the active
    group. *)
Theorem quick_panel_entry (sublime : SublimeFlags) (active_group : Z)
    (locations : list Location) (idx : Z) (l : Location)
    (orig_view : option View) (orig_sel : list Region) :
  0 <= idx ->
  nth_error locations (Z.to_nat idx) = Some l ->
  nth_error (map format_location locations) (Z.to_nat idx) = Some (format_location l)
  /\ highlight_entry sublime active_group locations idx
     = ([OpenFile (location_href l) (Some active_group)
           (Z.lor (Z.lor (TRANSIENT sublime) (ENCODED_POSITION sublime))
              (FORCE_GROUP sublime))], None)
  /\ select_entry sublime locations idx orig_view orig_sel
     = ([OpenFile (location_href l) None
           (Z.lor (ENCODED_POSITION sublime) (FORCE_GROUP sublime))], None).
Proof.
  intros Hidx Hl. apply Z.leb_le in Hidx. split; [|split].
  - rewrite nth_error_map, Hl. reflexivity.
  - unfold highlight_entry, py_index. rewrite Hidx, Hl.
    unfold location_href. now rewrite !append_assoc.
  - unfold select_entry. rewrite Hidx, Hl. now rewrite open_location_target.
Qed.

Lemma quick_panel_entry_witness :
  nth_error (map format_location [loc_a; loc_b_open]) (Z.to_nat 1)
  = Some (format_location loc_b_open)
  /\ highlight_entry (mkFlags 1 8 16 2) 0 [loc_a; loc_b_open] 1
     = ([OpenFile (location_href loc_b_open) (Some 0) (Z.lor (Z.lor 16 1) 8)], None)
  /\ select_entry (mkFlags 1 8 16 2) [loc_a; loc_b_open] 1 (Some sample_view) [(0, 0)]
     = ([OpenFile (location_href loc_b_open) None (Z.lor 1 8)], None).
Proof.
  apply (quick_panel_entry (mkFlags 1 8 16 2) 0 [loc_a; loc_b_open] 1 loc_b_open
           (Some sample_view) [(0, 0)]).
  - lia.
  - reflexivity.
Defined.

(** X9. Cancelling the quick panel (a negative index) opens no file: with
    a true view and a saved selection that is not empty, the selection is
    cleared, the saved regions are put back, the view is focused and its
    first saved region shown, in that order; without a true view nothing
    is done. An index past the end of the list raises and opens
    nothing. *)
Theorem select_entry_cancel (sublime : SublimeFlags)
    (locations : list Location) (idx : Z) (orig_view : option View)
    (orig_sel : list Region) :
  (idx < 0 ->
   (forall target group flags,
      ~ In (OpenFile target group flags)
          (fst (select_entry sublime locations idx orig_view orig_sel)))
   /\ (view_truthy orig_view = false ->
       select_entry sublime locations idx orig_view orig_sel = ([], None))
   /\ (forall v r rest,
         orig_view = Some v -> view_truthy orig_view = true ->
         orig_sel = r :: rest ->
         select_entry sublime locations idx orig_view orig_sel
         = ([SelClear (view_id v); SelAddAll (view_id v) orig_sel;
             FocusView (view_id v); ShowRegion (view_id v) r], None)))
  /\ (len_list locations <= idx ->
      select_entry sublime locations idx orig_view orig_sel
      = ([], Some IndexError)).
Proof.
  split.
  - intros Hidx. apply Z.leb_gt in Hidx. unfold select_entry. rewrite Hidx.
    split; [|split].
    + intros target group flags.
      destruct orig_view as [v|]; [|intros []].
      destruct (view_truthy (Some v)); [|intros []].
      destruct orig_sel as [|r rest]; simpl; intuition discriminate.
    + intros H. destruct orig_view as [v|]; [|reflexivity]. now rewrite H.
    + intros v r rest -> H ->. rewrite H. reflexivity.
  - intros Hidx. unfold len_list in Hidx. unfold select_entry.
    assert ((0 <=? idx) = true) as -> by (apply Z.leb_le; lia).
    assert (nth_error locations (Z.to_nat idx) = None) as ->
        by (apply nth_error_None; lia).
    reflexivity.
Qed.

Lemma select_entry_cancel_witness :
  select_entry (mkFlags 1 8 16 2) [loc_a; loc_b_open] (-1) (Some sample_view)
    [(4, 7); (9, 9)]
  = ([SelClear 1; SelAddAll 1 [(4, 7); (9, 9)]; FocusView 1; ShowRegion 1 (4, 7)],
     None).
Proof.
  apply (select_entry_cancel (mkFlags 1 8 16 2) [loc_a; loc_b_open] (-1)
           (Some sample_view) [(4, 7); (9, 9)]) with (v := sample_view) (rest := [(9, 9)]);
    try reflexivity; lia.
Defined.

(** X10. The context-menu command is shown exactly when running it would
    not end on the message that the symbol was not found: [is_visible] is
    true exactly when [run], at the same event, makes one request that is
    not a status message; and [run] never raises. *)
Theorem context_command_visible {Coord : Type} (flags : SublimeFlags)
    (sublime : SublimeModule) (window : Window) (view : View)
    (window_to_text : Coord * Coord -> Z) (event : Coord * Coord) :
  snd (ContextGotoDefinitionCommand.run flags sublime window view
         window_to_text event) = None
  /\ List.length (fst (ContextGotoDefinitionCommand.run flags sublime window view
                    window_to_text event)) = 1%nat
  /\ (ContextGotoDefinitionCommand.is_visible sublime window view
        window_to_text event = true
      <-> forall msg,
            ~ In (StatusMessage msg)
                (fst (ContextGotoDefinitionCommand.run flags sublime window view
                        window_to_text event))).
Proof.
  unfold ContextGotoDefinitionCommand.run, ContextGotoDefinitionCommand.is_visible.
  destruct (fst (symbol_at_point sublime window view (window_to_text event)))
    as [symbol locations].
  unfold navigate_to_symbol, len_list.
  destruct locations as [|l1 [|l2 rest]].
  - simpl. split; [reflexivity|]. split; [reflexivity|]. split; [discriminate|].
    intros H. exfalso. apply (H ("Unable to find " +++ symbol)). now left.
  - simpl. split; [reflexivity|]. split; [reflexivity|]. split; [|reflexivity].
    intros _ msg [H|[]]. discriminate H.
  - change (Z.of_nat (List.length (l1 :: l2 :: rest)) =? 0) with false.
    assert ((Z.of_nat (List.length (l1 :: l2 :: rest)) =? 1) = false) as ->
        by (apply Z.eqb_neq; cbn [List.length]; lia).
    cbv iota. simpl fst. simpl snd.
    split; [reflexivity|]. split; [reflexivity|]. split.
    + intros _ msg [H|[]]. discriminate H.
    + intros _. apply Z.ltb_lt. cbn [List.length]. lia.
Qed.

(** ** The extractor's loop as a whole *)

(** The loop body by cases: a stop line leaves everything as it is, any
    other line moves one line up and adds what [extracted] says. *)
Lemma scan_step_spec (temp : string) (i : Z) (htmlTab : list string) :
  scan_step temp i htmlTab
  = if stops temp then (false, i, htmlTab)
    else (true, i + 1, htmlTab ++ extracted temp).
Proof.
  unfold scan_step, stops, extracted, is_divider.
  destruct (contains "END FUNCTION" temp); [reflexivity|]. simpl orb.
  destruct (contains "#" temp) eqn:H.
  - assert (find "#" temp <> -1) as N.
    { intros E. apply find_absent in E. congruence. }
    apply Z.eqb_neq in N. rewrite N. simpl.
    destruct (contains "######" temp); [now rewrite app_nil_r|].
    destruct (contains "======" temp); [now rewrite app_nil_r|].
    destruct (contains "-----" temp); [now rewrite app_nil_r|].
    destruct (contains "<><><" temp); [now rewrite app_nil_r|].
    reflexivity.
  - apply find_absent in H. rewrite H. simpl.
    destruct (len temp =? 0); [now rewrite app_nil_r|]. simpl.
    destruct (contains "FUNCTION" temp); [now rewrite app_nil_r | reflexivity].
Qed.

Lemma flat_map_seq_shift {B} (f : nat -> list B) (n : nat) :
  flat_map f (seq 1 n) = flat_map (fun k => f (S k)) (seq 0 n).
Proof.
  rewrite <- seq_shift, !flat_map_concat_map, map_map. reflexivity.
Qed.

(** The loop up to the first stop line. *)
Lemma scan_until_stop (view : View) (l : Location) (n : nat) :
  forall (fuel : nat) (i : Z) (htmlTab : list string),
    (forall k, (k < n)%nat -> stops (line_above view l (i + Z.of_nat k)) = false) ->
    stops (line_above view l (i + Z.of_nat n)) = true ->
    (n < fuel)%nat ->
    scan fuel view l i htmlTab
    = Done (htmlTab
            ++ flat_map (fun k => extracted (line_above view l (i + Z.of_nat k)))
                 (seq 0 n)).
Proof.
  induction n as [|n IH]; intros fuel i htmlTab Hgo Hstop Hfuel.
  - destruct fuel as [|fuel]; [lia|].
    rewrite scan_unfold, scan_step_spec.
    replace (i + Z.of_nat 0) with i in Hstop by lia. rewrite Hstop.
    simpl. now rewrite app_nil_r.
  - destruct fuel as [|fuel]; [lia|].
    rewrite scan_unfold, scan_step_spec.
    assert (stops (line_above view l i) = false) as ->.
    { specialize (Hgo 0%nat). replace (i + Z.of_nat 0) with i in Hgo by lia.
      apply Hgo. lia. }
    rewrite (IH fuel (i + 1)).
    + change (seq 0 (S n)) with (0%nat :: seq 1 n).
      cbn [flat_map]. replace (i + Z.of_nat 0) with i by lia.
      rewrite <- app_assoc, flat_map_seq_shift. do 3 f_equal.
      apply flat_map_ext. intros k. do 2 f_equal. lia.
    + intros k Hk. replace (i + 1 + Z.of_nat k) with (i + Z.of_nat (S k)) by lia.
      apply Hgo. lia.
    + replace (i + 1 + Z.of_nat n) with (i + Z.of_nat (S n)) by lia. exact Hstop.
    + lia.
Qed.

(** X11. When the [n] lines above the definition do not end the loop and
    the next one does, the loop, given more than [n] steps, returns what it
    had followed by what each of the [n] lines adds, nearest line first;
    the stop line adds nothing. *)
Theorem scan_collects (view : View) (l : Location) (n : nat) :
  forall (fuel : nat) (i : Z) (htmlTab : list string),
    (forall k, (k < n)%nat -> stops (line_above view l (i + Z.of_nat k)) = false) ->
    stops (line_above view l (i + Z.of_nat n)) = true ->
    (n < fuel)%nat ->
    scan fuel view l i htmlTab
    = Done (htmlTab
            ++ flat_map (fun k => extracted (line_above view l (i + Z.of_nat k)))
                 (seq 0 n)).
Proof. exact (scan_until_stop view l n). Qed.

(** Above the fourth line of the ruled buffer: a comment, a rule, then a
    line of code. *)
Lemma scan_collects_witness :
  scan 5 ruled_view ruled_loc 1 []
  = Done ([] ++ flat_map
                  (fun k => extracted (line_above ruled_view ruled_loc (1 + Z.of_nat k)))
                  (seq 0 2))
  /\ scan 5 ruled_view ruled_loc 1 [] = Done [" text"].
Proof.
  split; [|reflexivity].
  apply (scan_collects ruled_view ruled_loc 2 5 1 []).
  - intros k Hk. destruct k as [|[|k]]; [reflexivity | reflexivity | lia].
  - reflexivity.
  - lia.
Defined.

(** X12. The loop has no bound of its own: it returns only on a stop line.
    If it returns, some line it read ends the loop; and if no line above
    the definition does, it is still running after any number of steps. *)
Theorem scan_needs_stop_line (view : View) (l : Location) :
  (forall fuel i htmlTab r,
     scan fuel view l i htmlTab = Done r ->
     exists n, (n < fuel)%nat /\ stops (line_above view l (i + Z.of_nat n)) = true)
  /\ (forall i,
        (forall k, stops (line_above view l (i + Z.of_nat k)) = false) ->
        forall fuel htmlTab, scan fuel view l i htmlTab = OutOfFuel).
Proof.
  assert (forall fuel i htmlTab r,
     scan fuel view l i htmlTab = Done r ->
     exists n, (n < fuel)%nat /\ stops (line_above view l (i + Z.of_nat n)) = true)
    as Hret.
  { induction fuel as [|fuel IH]; intros i htmlTab r; [discriminate|].
    rewrite scan_unfold, scan_step_spec.
    destruct (stops (line_above view l i)) eqn:Hs0.
    - intros _. exists 0%nat. split; [lia|].
      now replace (i + Z.of_nat 0) with i by lia.
    - intros E. apply IH in E as (n & Hn & Hs). exists (S n). split; [lia|].
      now replace (i + Z.of_nat (S n)) with (i + 1 + Z.of_nat n) by lia. }
  split; [exact Hret|].
  intros i Hgo fuel htmlTab.
  destruct (scan fuel view l i htmlTab) as [r| |] eqn:E.
  - apply Hret in E as (n & _ & Hs). rewrite Hgo in Hs. discriminate.
  - exfalso. revert i htmlTab Hgo E. clear Hret.
    induction fuel as [|fuel IH]; intros i htmlTab Hgo; [discriminate|].
    rewrite scan_unfold, scan_step_spec.
    destruct (stops (line_above view l i)); [discriminate|].
    apply IH. intros k.
    replace (i + 1 + Z.of_nat k) with (i + Z.of_nat (S k)) by lia. apply Hgo.
  - reflexivity.
Qed.

(** On a buffer whose lines all read as empty the loop does not end. *)
Lemma scan_needs_stop_line_witness :
  scan 100 blank_view ruled_loc 1 [] = OutOfFuel.
Proof.
  apply (scan_needs_stop_line blank_view ruled_loc).
  intros k. reflexivity.
Defined.

Lemma rebind_view_none (window : Window) (locations : list Location) :
  rebind_view window None locations = Done None
  \/ rebind_view window None locations = Raise AttributeError.
Proof. destruct locations; [left | right]; reflexivity. Qed.

Lemma rebind_view_not_open (window : Window) (l : Location)
    (locations : list Location) : forall view,
  In l locations -> find_open_file window (fname l) = None ->
  rebind_view window view locations = Done None
  \/ rebind_view window view locations = Raise AttributeError.
Proof.
  induction locations as [|x rest IH]; intros view Hin Hl; [destruct Hin|].
  simpl. destruct view as [v|]; [|now right].
  destruct Hin as [->|Hin].
  - rewrite Hl. apply rebind_view_none.
  - now apply IH.
Qed.

Lemma rebind_view_all_open (window : Window) (locations : list Location) :
  forall view,
    view <> None ->
    (forall x, In x locations -> find_open_file window (fname x) <> None) ->
    exists r, rebind_view window view locations = Done r.
Proof.
  induction locations as [|x rest IH]; intros view Hv Hall; simpl.
  - eauto.
  - destruct view as [v|]; [|contradiction].
    apply IH.
    + apply Hall. now left.
    + intros y Hy. apply Hall. now right.
Qed.

(** A location whose file is not open makes [extractInfo] raise. *)
Lemma extractInfo_not_open (fuel : nat) (window : Window) (view : View)
    (locations : list Location) (l : Location) :
  In l locations ->
  find_open_file window (fname l) = None ->
  extractInfo fuel window view locations = Raise AttributeError.
Proof.
  intros Hin Hl. unfold extractInfo.
  destruct (rebind_view_not_open window l locations (Some view) Hin Hl) as [-> | ->];
    reflexivity.
Qed.

(** X13. When the file of one of the locations is not open, whichever it
    is, [extractInfo] raises [AttributeError], before any line is read. *)
Theorem extractInfo_file_not_open (fuel : nat) (window : Window) (view : View)
    (locations : list Location) (l : Location) :
  In l locations ->
  find_open_file window (fname l) = None ->
  extractInfo fuel window view locations = Raise AttributeError.
Proof. exact (extractInfo_not_open fuel window view locations l). Qed.

Lemma extractInfo_file_not_open_witness :
  extractInfo 0 hover_window hover_view [loc_a; doc_loc_b] = Raise AttributeError.
Proof.
  apply (extractInfo_file_not_open 0 hover_window hover_view [loc_a; doc_loc_b] loc_a).
  - now left.
  - reflexivity.
Defined.

(** X14. A popup is shown only when the setting is on, the hover is over
    text, the scope test passes, some location is left after filtering and
    the file of every location left is open. *)
Theorem on_hover_popup_conditions (fuel : nat) (sublime : SublimeModule)
    (window : Window) (view : View) (point hover_zone : Z) (body : string) :
  on_hover fuel sublime window view point hover_zone = Done (Some body) ->
  show_definitions view = true
  /\ hover_zone = HOVER_TEXT sublime
  /\ hover_rejected view point = false
  /\ filter_current_symbol window view point
       (fst (fst (symbol_at_point sublime window view point)))
       (snd (fst (symbol_at_point sublime window view point))) <> []
  /\ forall l,
       In l (filter_current_symbol window view point
               (fst (fst (symbol_at_point sublime window view point)))
               (snd (fst (symbol_at_point sublime window view point)))) ->
       find_open_file window (fname l) <> None.
Proof.
  unfold on_hover.
  destruct (show_definitions view); [|discriminate]. simpl negb. cbv iota.
  destruct (Z.eqb_spec hover_zone (HOVER_TEXT sublime)) as [E|_]; [|discriminate].
  simpl negb. cbv iota.
  destruct (hover_rejected view point); [discriminate|].
  destruct (symbol_at_point sublime window view point) as [[symbol found] trace].
  simpl fst. simpl snd. cbv beta iota zeta.
  destruct (filter_current_symbol window view point symbol found)
    as [|x rest] eqn:F; [discriminate|].
  destruct (extractInfo fuel window view (x :: rest)) as [comment| |] eqn:X;
    try discriminate.
  intros _. repeat split; auto; try discriminate.
  intros l Hl Hnone.
  rewrite (extractInfo_not_open fuel window view (x :: rest) l Hl Hnone) in X.
  discriminate.
Qed.

Lemma on_hover_popup_conditions_witness :
  show_definitions hover_view = true
  /\ 1 = HOVER_TEXT sample_sublime
  /\ hover_rejected hover_view 0 = false
  /\ filter_current_symbol hover_window hover_view 0
       (fst (fst (symbol_at_point sample_sublime hover_window hover_view 0)))
       (snd (fst (symbol_at_point sample_sublime hover_window hover_view 0))) <> []
  /\ forall l,
       In l (filter_current_symbol hover_window hover_view 0
               (fst (fst (symbol_at_point sample_sublime hover_window hover_view 0)))
               (snd (fst (symbol_at_point sample_sublime hover_window hover_view 0)))) ->
       find_open_file hover_window (fname l) <> None.
Proof.
  apply (on_hover_popup_conditions 10 sample_sublime hover_window hover_view 0 1
           (popup_body "s" (join "<br>" (map link [doc_loc_a; doc_loc_b]))
              "<p>Description</p><ul><p> doc of b</p></ul>")).
  vm_compute. reflexivity.
Defined.

Lemma rev_extracted (temp : string) : rev (extracted temp) = extracted temp.
Proof. unfold extracted. now destruct (_ && _). Qed.

Lemma rev_flat_map {A B} (f : A -> list B) (l : list A) :
  rev (flat_map f l) = flat_map (fun x => rev (f x)) (rev l).
Proof.
  induction l as [|x l IH]; simpl; [reflexivity|].
  rewrite rev_app_distr, IH, flat_map_app. simpl. now rewrite app_nil_r.
Qed.

(** X15. With every file open, and [n] lines above the last location
    before the first stop line, [extractInfo] formats the texts of those
    lines from the top one down to the one just above the definition. *)
Theorem extractInfo_top_down (fuel : nat) (window : Window) (view view_l : View)
    (init : list Location) (l : Location) (n : nat) :
  (forall x, In x init -> find_open_file window (fname x) <> None) ->
  find_open_file window (fname l) = Some view_l ->
  (forall k, (k < n)%nat -> stops (line_above view_l l (1 + Z.of_nat k)) = false) ->
  stops (line_above view_l l (1 + Z.of_nat n)) = true ->
  (n < fuel)%nat ->
  extractInfo fuel window view (init ++ [l])
  = miseEnForme
      (flat_map (fun k => extracted (line_above view_l l (1 + Z.of_nat k)))
         (rev (seq 0 n))).
Proof.
  intros Hall Hl Hgo Hstop Hfuel. unfold extractInfo.
  destruct (rebind_view_all_open window (init ++ [l]) (Some view)) as (r & R).
  - discriminate.
  - intros x Hx. apply in_app_or in Hx as [Hx|[<-|[]]]; [now apply Hall|].
    rewrite Hl. discriminate.
  - rewrite R. apply rebind_view_snoc in R. rewrite R, Hl, loop_variable_snoc.
    rewrite (scan_until_stop view_l l n fuel 1 [] Hgo Hstop Hfuel).
    simpl app. rewrite rev_flat_map.
    rewrite (flat_map_ext _ (fun k => extracted (line_above view_l l (1 + Z.of_nat k))))
      by (intros k; apply rev_extracted).
    now destruct (miseEnForme _).
Qed.

Lemma extractInfo_top_down_witness :
  extractInfo 5 hover_window hover_view ([doc_loc_a] ++ [doc_loc_b])
  = miseEnForme
      (flat_map (fun k => extracted (line_above doc_view_b doc_loc_b (1 + Z.of_nat k)))
         (rev (seq 0 1))).
Proof.
  apply (extractInfo_top_down 5 hover_window hover_view doc_view_b
           [doc_loc_a] doc_loc_b 1).
  - intros x [<-|[]]. discriminate.
  - reflexivity.
  - intros k Hk. destruct k as [|k]; [reflexivity | lia].
  - reflexivity.
  - lia.
Defined.

(** ** The formatter as a whole *)

Lemma append_empty (a b : string) : a +++ b = "" -> a = "" /\ b = "".
Proof. destruct a; simpl; intros H; [auto | discriminate]. Qed.

(** After one line, some bucket has an entry. *)
Lemma classify_step_fills (b b' : Buckets) (ligne : string) :
  classify_step b ligne = Done b' ->
  inputParam b' <> [] \/ outputParam b' <> []
  \/ description b' <> [] \/ other b' <> [].
Proof.
  unfold classify_step.
  destruct (contains "@param" (lower ligne)).
  { intros E. inversion E. simpl. left. apply snoc_not_nil. }
  destruct (contains "@return" (lower ligne)).
  { intros E. inversion E. simpl. right. left. apply snoc_not_nil. }
  destruct (contains "@desc" (lower ligne)).
  { intros E. inversion E. simpl. right. right. left. apply snoc_not_nil. }
  destruct (contains "@" ligne).
  { intros E. inversion E. simpl. right. right. right. apply snoc_not_nil. }
  destruct (String.eqb (last b) "@param").
  { destruct (inputParam b) as [|x rest] eqn:P; [discriminate|].
    destruct (exists_last (l := x :: rest)) as (init & y & ->); [discriminate|].
    rewrite extend_last_snoc. intros E. inversion E. simpl.
    left. apply snoc_not_nil. }
  destruct (String.eqb (last b) "@return").
  { destruct (outputParam b) as [|x rest] eqn:P; [discriminate|].
    destruct (exists_last (l := x :: rest)) as (init & y & ->); [discriminate|].
    rewrite extend_last_snoc. intros E. inversion E. simpl.
    right. left. apply snoc_not_nil. }
  destruct (String.eqb (last b) "@desc").
  { intros E. inversion E. simpl. right. right. left. apply snoc_not_nil. }
  intros E. inversion E. simpl. right. right. right. apply snoc_not_nil.
Qed.

Lemma classify_fills (textTab : list string) : forall b b',
  textTab <> [] \/ (inputParam b <> [] \/ outputParam b <> []
                    \/ description b <> [] \/ other b <> []) ->
  classify b textTab = Done b' ->
  inputParam b' <> [] \/ outputParam b' <> []
  \/ description b' <> [] \/ other b' <> [].
Proof.
  induction textTab as [|ligne rest IH]; intros b b' H; simpl.
  - intros E. inversion E. subst b'. destruct H as [H|H]; [contradiction | exact H].
  - destruct (classify_step b ligne) as [b1| |] eqn:S; try discriminate.
    apply IH. right. exact (classify_step_fills b b1 ligne S).
Qed.

(** X16. The formatter returns the empty markup on the empty list of lines
    and on no other: every line, whatever it holds, leaves something in
    the markup. *)
Theorem miseEnForme_empty (textTab : list string) :
  miseEnForme textTab = Done "" <-> textTab = [].
Proof.
  split; [|intros ->; reflexivity].
  unfold miseEnForme.
  destruct (classify initial_buckets textTab) as [b| |] eqn:C; try discriminate.
  intros E. inversion E as [R]. rewrite render_sections in R.
  apply append_empty in R as [Rd R].
  apply append_empty in R as [Ri R].
  apply append_empty in R as [Ro Rt].
  apply render_description_empty in Rd. apply render_input_empty in Ri.
  apply render_output_empty in Ro. apply render_other_empty in Rt.
  destruct textTab as [|ligne rest]; [reflexivity|]. exfalso.
  destruct (classify_fills (ligne :: rest) initial_buckets b) as [H|[H|[H|H]]];
    auto; left; discriminate.
Qed.

(** The first occurrence found by [find]: what precedes it has the length
    returned, and no occurrence starts earlier. *)
Lemma find_from_first (pat s : string) : forall k0 k,
  find_from pat s k0 = k -> k <> -1 -> 0 <= k0 ->
  exists a b,
    s = a +++ pat +++ b /\ len a = k - k0
    /\ forall a' b', s = a' +++ pat +++ b' -> len a <= len a'.
Proof.
  induction s as [|c s IH]; intros k0 k.
  - simpl. destruct (startswith pat "") eqn:P; [|intros <- N; now destruct N].
    intros <- _ _. apply startswith_iff in P as (r & Hr).
    exists "", r. split; [exact Hr|]. split; [unfold len; simpl; lia|].
    intros a' b' _. unfold len. simpl. lia.
  - change (find_from pat (String c s) k0)
      with (if startswith pat (String c s) then k0 else find_from pat s (k0 + 1)).
    destruct (startswith pat (String c s)) eqn:P.
    + intros <- _ _. apply startswith_iff in P as (r & Hr).
      exists "", r. split; [exact Hr|]. split; [unfold len; simpl; lia|].
      intros a' b' _. unfold len. simpl. lia.
    + intros E N Hk0. destruct (IH (k0 + 1) k E N) as (a & b & Hs & Hlen & Hmin);
        [lia|].
      exists (String c a), b. split; [simpl; now rewrite Hs|].
      split; [unfold len in *; simpl String.length; lia|].
      intros a' b' Hs'. destruct a' as [|x a'].
      * exfalso. assert (startswith pat (String c s) = true) as T
            by (apply startswith_iff; now exists b').
        congruence.
      * simpl in Hs'. inversion Hs' as [[Hx Hs'']].
        specialize (Hmin a' b' Hs''). unfold len in *. simpl String.length. lia.
Qed.

Lemma lower_app_inv (s a b : string) :
  lower s = a +++ b ->
  exists a0 b0, s = a0 +++ b0 /\ lower a0 = a /\ lower b0 = b
                /\ String.length a0 = String.length a.
Proof.
  revert s. induction a as [|x a IH]; intros s E.
  - exists "", s. auto.
  - destruct s as [|c s]; [discriminate|].
    simpl in E. inversion E as [[Hc Hs]].
    destruct (IH s Hs) as (a0 & b0 & -> & Ha & Hb & Hl).
    exists (String c a0), b0. simpl. rewrite Ha, Hb, Hl. auto.
Qed.

Lemma drop_app (a b : string) : drop (String.length a) (a +++ b) = b.
Proof. induction a as [|x a IH]; simpl; [now destruct b | exact IH]. Qed.

Lemma length_append (a b : string) :
  String.length (a +++ b) = (String.length a + String.length b)%nat.
Proof. induction a as [|x a IH]; simpl; [reflexivity | now rewrite IH]. Qed.

(** What [s[pos:]] is when [pos] is the place found for [marker] in the
    lower-cased line plus the length of [marker]. *)
Lemma text_after_marker (marker ligne : string) :
  contains marker (lower ligne) = true ->
  exists before found,
    ligne = before +++ found
            +++ slice_from ligne (find marker (lower ligne) + len marker)
    /\ lower found = marker
    /\ forall a b, lower ligne = a +++ marker +++ b -> len before <= len a.
Proof.
  intros H.
  assert (find marker (lower ligne) <> -1) as N.
  { intros E. apply find_absent in E. congruence. }
  destruct (find_from_first marker (lower ligne) 0 _ eq_refl N) as (a & b & Hs & Hlen & Hmin);
    [lia|].
  fold (find marker (lower ligne)) in Hlen.
  destruct (lower_app_inv ligne a (marker +++ b) Hs) as (a0 & r0 & E0 & Ha0 & Hr0 & La).
  destruct (lower_app_inv r0 marker b Hr0) as (m0 & b0 & E1 & Hm0 & Hb0 & Lm).
  exists a0, m0. subst r0. split; [|split].
  - rewrite E0 at 1. do 2 f_equal.
    unfold slice_from.
    assert (0 <= find marker (lower ligne) + len marker) as P
        by (unfold len in *; lia).
    apply Z.ltb_ge in P. rewrite P.
    replace (Z.to_nat (find marker (lower ligne) + len marker))
      with (String.length (a0 +++ m0)).
    + rewrite E0, <- append_assoc. now rewrite drop_app.
    + rewrite length_append, La, Lm. unfold len in *. lia.
  - exact Hm0.
  - intros a' b' E'. unfold len. rewrite La. exact (Hmin a' b' E').
Qed.

(** X17. On a line that lower-casing leaves at its length (so every
    character lowers to one character, as all of Latin-1 do), the entry a
    tag line starts is what follows the tag in the line: the line is some
    text, the tag in some case, then the entry, and the tag does not
    occur, in any case, earlier in the line. This holds for [@param], for
    [@return] on a line without [@param], and for [@desc] on a line
    without the two others. *)
Theorem tag_entry_follows_tag (b : Buckets) (ligne : string) :
  len (lower ligne) = len ligne ->
  (contains "@param" (lower ligne) = true ->
   exists before found entry,
     classify_step b ligne
     = Done (mkBuckets (inputParam b ++ [entry]) (outputParam b)
               (description b) (other b) "@param")
     /\ ligne = before +++ found +++ entry /\ lower found = "@param"
     /\ forall a c, lower ligne = a +++ "@param" +++ c -> len before <= len a)
  /\ (contains "@param" (lower ligne) = false ->
      contains "@return" (lower ligne) = true ->
      exists before found entry,
        classify_step b ligne
        = Done (mkBuckets (inputParam b) (outputParam b ++ [entry])
                  (description b) (other b) "@return")
        /\ ligne = before +++ found +++ entry /\ lower found = "@return"
        /\ forall a c, lower ligne = a +++ "@return" +++ c -> len before <= len a)
  /\ (contains "@param" (lower ligne) = false ->
      contains "@return" (lower ligne) = false ->
      contains "@desc" (lower ligne) = true ->
      exists before found entry,
        classify_step b ligne
        = Done (mkBuckets (inputParam b) (outputParam b)
                  (description b ++ [entry]) (other b) "@desc")
        /\ ligne = before +++ found +++ entry /\ lower found = "@desc"
        /\ forall a c, lower ligne = a +++ "@desc" +++ c -> len before <= len a).
Proof.
  intros _. split; [|split].
  - intros H. destruct (text_after_marker "@param" ligne H) as (before & found & E & L & M).
    exists before, found, (slice_from ligne (find "@param" (lower ligne) + 6)).
    split; [unfold classify_step; now rewrite H|]. auto.
  - intros H0 H.
    destruct (text_after_marker "@return" ligne H) as (before & found & E & L & M).
    exists before, found, (slice_from ligne (find "@return" (lower ligne) + 7)).
    split; [unfold classify_step; now rewrite H0, H|]. auto.
  - intros H0 H1 H.
    destruct (text_after_marker "@desc" ligne H) as (before & found & E & L & M).
    exists before, found, (slice_from ligne (find "@desc" (lower ligne) + 5)).
    split; [unfold classify_step; now rewrite H0, H1, H|]. auto.
Qed.

Lemma tag_entry_follows_tag_witness :
  exists before found entry,
    classify_step initial_buckets "# @Param x: the input"
    = Done (mkBuckets ([] ++ [entry]) [] [] [] "@param")
    /\ "# @Param x: the input" = before +++ found +++ entry
    /\ lower found = "@param"
    /\ forall a c, lower "# @Param x: the input" = a +++ "@param" +++ c ->
                   len before <= len a.
Proof.
  apply (tag_entry_follows_tag initial_buckets "# @Param x: the input");
    reflexivity.
Defined.

(** X18. A line without [@] is an entry of its own, not a part of the
    entry before it, when it follows a [@desc] line (it is the next
    description entry) and when it follows a line with an [@] that is none
    of the three tags (both go to the other bucket, and the tag in force
    before them is forgotten). *)
Theorem continuation_separate_entry (b : Buckets) (l1 l2 : string) :
  contains "@" l2 = false ->
  contains "@param" (lower l1) = false ->
  contains "@return" (lower l1) = false ->
  (contains "@desc" (lower l1) = true ->
   classify b [l1; l2]
   = Done (mkBuckets (inputParam b) (outputParam b)
             (description b ++ [slice_from l1 (find "@desc" (lower l1) + 5); l2])
             (other b) "@desc"))
  /\ (contains "@desc" (lower l1) = false -> contains "@" l1 = true ->
      classify b [l1; l2]
      = Done (mkBuckets (inputParam b) (outputParam b) (description b)
                (other b ++ [l1; l2]) "")).
Proof.
  intros Hat H0 H1.
  pose proof (no_at_no_tag "param" l2 Hat) as Hp.
  pose proof (no_at_no_tag "return" l2 Hat) as Hr.
  pose proof (no_at_no_tag "desc" l2 Hat) as Hd.
  simpl in Hp, Hr, Hd.
  split.
  - intros H2. eapply classify_two.
    + unfold classify_step. rewrite H0, H1, H2. reflexivity.
    + unfold classify_step. rewrite Hp, Hr, Hd, Hat. simpl.
      now rewrite <- app_assoc.
  - intros H2 H3. eapply classify_two.
    + unfold classify_step. rewrite H0, H1, H2, H3. reflexivity.
    + unfold classify_step. rewrite Hp, Hr, Hd, Hat. simpl.
      now rewrite <- app_assoc.
Qed.

Lemma continuation_separate_entry_witness :
  classify (mkBuckets ["a"] [] [] [] "@param") ["@see other"; "more"]
  = Done (mkBuckets ["a"] [] [] ([] ++ ["@see other"; "more"]) "").
Proof.
  apply (continuation_separate_entry (mkBuckets ["a"] [] [] [] "@param")
           "@see other" "more"); reflexivity.
Defined.

Lemma htmlList_acc (liste : list string) : forall html,
  fold_left (fun html ligne => html +++ "<li>" +++ ligne +++ "</li>") liste html
  = html +++ wrap_all "<li>" "</li>" liste.
Proof.
  induction liste as [|x liste IH]; intros html.
  - simpl. now rewrite append_nil_r.
  - cbn [fold_left wrap_all]. rewrite IH. now rewrite !append_assoc.
Qed.

(** X19. [htmlText] is the lines wrapped one by one in a paragraph, in
    order, and [htmlList] is one list holding the lines wrapped one by one
    in an item, in order; so the markup of two lists put end to end is the
    two markups put end to end. *)
Theorem html_of_lines (l1 l2 : list string) :
  htmlText l1 = wrap_all "<p>" "</p>" l1
  /\ htmlList l1 = "<ul>" +++ wrap_all "<li>" "</li>" l1 +++ "</ul>"
  /\ htmlText (l1 ++ l2) = htmlText l1 +++ htmlText l2.
Proof.
  assert (forall l, htmlText l = wrap_all "<p>" "</p>" l) as T.
  { induction l as [|x l IH]; [reflexivity|].
    rewrite htmlText_cons, IH. reflexivity. }
  split; [apply T|]. split.
  - unfold htmlList. rewrite htmlList_acc. now rewrite !append_assoc.
  - unfold htmlText at 1. rewrite fold_left_app.
    fold (htmlText l1). now rewrite htmlText_acc.
Qed.

(** ** [filter_current_symbol], composed *)

(** X20. Filtering a list put together from two lists is filtering each,
    and filtering what was filtered changes nothing. *)
Theorem filter_current_symbol_compose (window : Window) (view : View)
    (point : Z) (symbol : string) (l1 l2 : list Location) :
  filter_current_symbol window view point symbol (l1 ++ l2)
  = filter_current_symbol window view point symbol l1
    ++ filter_current_symbol window view point symbol l2
  /\ filter_current_symbol window view point symbol
       (filter_current_symbol window view point symbol l1)
     = filter_current_symbol window view point symbol l1.
Proof.
  unfold filter_current_symbol. rewrite !filter_loop_spec. simpl. split.
  - apply filter_app.
  - apply filter_id_in. intros x Hx. now apply filter_In in Hx.
Qed.

(** ** [lookup_symbol], composed *)

(** X21. For a symbol of stripped length 3 or more, the two searches are
    made once each, the index first, both on the symbol as given; every
    location the open-files search returns is in the result, and a
    location of the result that the open-files search did not return is
    one the index search returned, in a file the open-files search did not
    name. *)
Theorem lookup_symbol_long (window : Window) (symbol : string) :
  3 <= len (strip symbol) ->
  snd (lookup_symbol window symbol)
  = [EvLookupInIndex symbol; EvLookupInOpenFiles symbol]
  /\ (forall ofl,
        In ofl (lookup_symbol_in_open_files window symbol) ->
        In ofl (fst (lookup_symbol window symbol)))
  /\ (forall l,
        In l (fst (lookup_symbol window symbol)) ->
        In l (lookup_symbol_in_open_files window symbol)
        \/ (In l (lookup_symbol_in_index window symbol)
            /\ file_in_location_list (fname l)
                 (lookup_symbol_in_open_files window symbol) = false)).
Proof.
  intros H. apply Z.ltb_ge in H. unfold lookup_symbol. rewrite H.
  simpl. split; [reflexivity|]. split.
  - intros ofl Hin.
    apply (Permutation_in _
             (Permutation_sym
                (merge_open_part (lookup_symbol_in_index window symbol)
                   (lookup_symbol_in_open_files window symbol)))) in Hin.
    now apply filter_In in Hin.
  - intros l Hin.
    destruct (file_in_location_list (fname l)
                (lookup_symbol_in_open_files window symbol)) eqn:E.
    + left. apply (Permutation_in _ (merge_open_part
                      (lookup_symbol_in_index window symbol)
                      (lookup_symbol_in_open_files window symbol))).
      apply filter_In. auto.
    + right. split; [|reflexivity].
      assert (In l (filter
                      (fun x => negb (file_in_location_list (fname x)
                                        (lookup_symbol_in_open_files window symbol)))
                      (merge (lookup_symbol_in_index window symbol)
                         (lookup_symbol_in_open_files window symbol)))) as F
          by (apply filter_In; split; [exact Hin | now rewrite E]).
      rewrite merge_index_part in F. now apply filter_In in F.
Qed.

Lemma lookup_symbol_long_witness :
  snd (lookup_symbol sample_window "foo")
  = [EvLookupInIndex "foo"; EvLookupInOpenFiles "foo"]
  /\ (forall ofl,
        In ofl (lookup_symbol_in_open_files sample_window "foo") ->
        In ofl (fst (lookup_symbol sample_window "foo")))
  /\ (forall l,
        In l (fst (lookup_symbol sample_window "foo")) ->
        In l (lookup_symbol_in_open_files sample_window "foo")
        \/ (In l (lookup_symbol_in_index sample_window "foo")
            /\ file_in_location_list (fname l)
                 (lookup_symbol_in_open_files sample_window "foo") = false)).
Proof.
  apply (lookup_symbol_long sample_window "foo"). vm_compute. discriminate.
Defined.
